(** * Statistical randomness tests: runs, longest run in block, template
      matching and the spectral test

    A shallow embedding of the test bodies of

    - [src/rngtest/stattests/runs.py]        ([runs], [longest_runs], [asruns])
    - [src/rngtest/stattests/_template.py]   (template matching)
    - [src/rngtest/randtests/fourier.py]     ([discrete_fourier_transform])
    - [src/coinflip/_randtests/fourier.py]   ([spectral])

    Python integers are [Z], sequences are lists, a raised exception is
    the name of its class, and floating-point arithmetic is an interface
    ([FloatOps]) whose operations the bodies call in the order the source
    does.  The functions are modelled as their [def] bodies; of the
    decorators only [template] is in the sources, and its wrapper is
    [template_wrapper]. *)

From Stdlib Require Import ZArith Lia Reals Lra ClassicalEpsilon.
From stdpp Require Import prelude strings.

Local Open Scope Z_scope.

(** ** Python outcomes *)

(** An exception is identified by the name of its class. *)
Definition exn : Type := string.

Definition IndexError : exn := "IndexError"%string.
Definition KeyError : exn := "KeyError"%string.
Definition TypeError : exn := "TypeError"%string.
Definition ValueError : exn := "ValueError"%string.
Definition ZeroDivisionError : exn := "ZeroDivisionError"%string.
Definition NotImplementedError : exn := "NotImplementedError"%string.

Definition StopIteration : exn := "StopIteration"%string.
Definition NonBinaryTruncatedSequenceError : exn :=
  "NonBinaryTruncatedSequenceError"%string.

(** Error kinds the specification names and the sources never define. *)
Definition InsufficientSequenceLength : exn :=
  "InsufficientSequenceLength"%string.
Definition DegenerateProportionError : exn :=
  "DegenerateProportionError"%string.

(** The outcome of a Python call: a returned value, a raised exception, or
    no outcome at all (a loop that never exits). *)
Inductive result (T : Type) : Type :=
| Return (x : T)
| Raise (e : exn)
| Diverges.
Arguments Return {T} x.
Arguments Raise {T} e.
Arguments Diverges {T}.

#[global] Instance result_ret : MRet result := λ T x, Return x.
#[global] Instance result_bind : MBind result := λ T U f m,
  match m with
  | Return x => f x
  | Raise e => Raise e
  | Diverges => Diverges
  end.

(** ** Python integers and lists *)

Definition len {T : Type} (xs : list T) : Z := Z.of_nat (length xs).

(** [a // b]: floor division ([Z.div] rounds towards minus infinity, as
    Python does). *)
Definition floordiv (a b : Z) : result Z :=
  if decide (b = 0) then Raise ZeroDivisionError else Return (a `div` b).

(** Position of index [i] in a list of length [n]: a negative index counts
    from the end, anything outside [-n .. n-1] is an [IndexError]. *)
Definition list_index (n i : Z) : result nat :=
  let j := if decide (i < 0) then i + n else i in
  if decide (0 ≤ j < n) then Return (Z.to_nat j) else Raise IndexError.

(** [xs[i]] *)
Definition getitem {T : Type} (xs : list T) (i : Z) : result T :=
  j ← list_index (len xs) i;
  match xs !! j with
  | Some x => Return x
  | None => Raise IndexError
  end.

(** [xs[i] += 1] where [i] is what a Python function returned: an integer
    or [None] (a [TypeError]: list indices must be integers). *)
Definition increment_item (xs : list Z) (i : option Z) : result (list Z) :=
  match i with
  | None => Raise TypeError
  | Some i =>
      j ← list_index (len xs) i;
      match xs !! j with
      | Some x => Return (<[j := x + 1]> xs)
      | None => Raise IndexError
      end
  end.

(** [xs[lo:hi]] for [0 <= lo] and [0 <= hi]: out-of-range bounds are
    clipped, never an error. *)
Definition slice {T : Type} (xs : list T) (lo hi : Z) : list T :=
  take (Z.to_nat (hi - lo)) (drop (Z.to_nat lo) xs).

(** ** Floating-point interface

    The arithmetic the sources do on floats, and the library functions
    they call ([math], [scipy.special], [numpy.fft]).  [fdiv] is the
    division of the floating-point format, where a zero divisor gives an
    infinity or a NaN: it is what numpy's floats do, and what Python's
    floats do when the divisor is a constant other than zero.  Python's
    division by a float that may be zero is [truediv] below. *)
Class FloatOps : Type := {
  float : Type;
  complex : Type;
  of_int : Z → float;
  (** the decimal literal [m / 10^d]: [0.05 = decimal 5 2] *)
  decimal : Z → Z → float;
  nan : float;
  fadd : float → float → float;
  fsub : float → float → float;
  fmul : float → float → float;
  fdiv : float → float → float;
  fpow : float → Z → float;
  fabs : float → float;
  fsqrt : float → float;
  flog : float → float;
  fexp : float → float;
  ferfc : float → float;
  flt : float → float → bool;
  fis_zero : float → bool;
  gammaincc : float → float → float;
  hyp1f1 : float → float → float → float;
  fft : list float → list complex;
  cabs : complex → float
}.

(** A statistic is an [int] or a [float]. *)
Inductive number `{FloatOps} : Type :=
| Int (i : Z)
| Float (x : float).

(** Python's float division ([x / y] on two Python floats): a zero divisor
    raises. *)
Definition truediv `{FloatOps} (x y : float) : result float :=
  if fis_zero y then Raise ZeroDivisionError else Return (fdiv x y).

(** [sum(xs)]: Python's [sum] starts from the integer [0]. *)
Definition fsum `{FloatOps} (xs : list float) : float :=
  foldl fadd (of_int 0) xs.

(** ** Blocks *)

(** Modelled from the spec: [chunks] and [rawblocks] of
    [rngtest.stattests.common], which [src/] does not contain.  A sequence
    of length [n] yields the [n // blocksize] consecutive blocks of
    [blocksize] elements; the trailing [n mod blocksize] elements are
    discarded.  The specification defines blocks for [blocksize > 0]
    only; for any other block size this definition yields no block, and
    no theorem below depends on that. *)
Definition blocks {A : Type} (series : list A) (blocksize : Z)
  : list (list A) :=
  (λ i : Z, slice series (i * blocksize) (i * blocksize + blocksize))
    <$> seqZ 0 (len series `div` blocksize).
Definition chunks {A : Type} := @blocks A.
Definition rawblocks {A : Type} := @blocks A.

(** ** Runs ([runs.py]) *)

(** [@dataclass class Run: value: Any; length: int = 1] *)
Module Run.
Record t (A : Type) : Type := mk { value : A; length : Z }.
Arguments mk {A} value length.
Arguments value {A} _.
Arguments length {A} _.
End Run.

Section AsRuns.
Context {A : Type} `{EqDecision A}.

(** The [for _, value in series.iteritems()] loop of [asruns], with its
    [else] clause.  A run object is yielded and then [current_run] is
    rebound to a fresh [Run(value)], so a yielded run is never mutated
    afterwards: the generator is the list of the runs it yields. *)
Fixpoint asruns_loop (current_run : Run.t A) (items : list A)
  : list (Run.t A) :=
  match items with
  | [] => [current_run]
  | value :: items' =>
      if decide (value = Run.value current_run)
      then asruns_loop
             (Run.mk (Run.value current_run) (Run.length current_run + 1))
             items'
      else current_run :: asruns_loop (Run.mk value 1) items'
  end.

(** [asruns(series)]: [series.iloc[0]] raises [IndexError] on an empty
    series. *)
Definition asruns (series : list A) : result (list (Run.t A)) :=
  match series with
  | [] => Raise IndexError
  | first_value :: _ => Return (asruns_loop (Run.mk first_value 0) series)
  end.

(** The stretch of the sequence a run stands for. *)
Definition stretch (r : Run.t A) : list A :=
  replicate (Z.to_nat (Run.length r)) (Run.value r).

Definition total_length (rs : list (Run.t A)) : Z :=
  foldr (λ r acc, Run.length r + acc) 0 rs.

(** Consecutive runs carry different values. *)
Definition adjacent_differ (rs : list (Run.t A)) : Prop :=
  ∀ (i : nat) (r1 r2 : Run.t A),
    rs !! i = Some r1 → rs !! S i = Some r2 → Run.value r1 ≠ Run.value r2.
End AsRuns.

(** [TestResult(statistic=..., p=...)] of [rngtest.stattests.common]. *)
Module TestResult.
Record t `{FloatOps} : Type := mk { statistic : number; p : float }.
End TestResult.

Section RunsTests.
Context `{FloatOps} {A : Type} `{EqDecision A}.

(** [series.value_counts()[v]]: the number of occurrences of [v]; a value
    that does not occur is not a key of the counts. *)
Definition value_counts (series : list A) (v : A) : result Z :=
  let count := len (filter (λ x, x = v) series) in
  if decide (count = 0) then Raise KeyError else Return count.

(** The body of [runs(series, candidate)]. *)
Definition runs (series : list A) (candidate : A) : result TestResult.t :=
  let n := len series in
  ncandidates ← value_counts series candidate;
  let propcandidates := fdiv (of_int ncandidates) (of_int n) in
  rs ← asruns series;
  let nruns := len rs in
  let p :=
    ferfc
      (fdiv
         (fabs (fsub (of_int nruns)
                     (fmul (of_int (2 * ncandidates))
                           (fsub (of_int 1) propcandidates))))
         (fmul (fmul (fmul (of_int 2) (fsqrt (of_int (2 * n))))
                     propcandidates)
               (fsub (of_int 1) propcandidates))) in
  Return (TestResult.mk _ (Int nruns) p).

(** The [if n < 128 ... elif ... else] chain of [longest_runs]:
    [(blocksize, nblocks, freqbinranges)]. *)
Definition longest_runs_constants (n : Z) : result (Z * Z * list Z) :=
  if decide (n < 128) then Raise ValueError
  else if decide (n < 6272) then Return (8, 16, [1; 2; 3; 4])
  else if decide (n < 750000) then Return (128, 49, [4; 5; 6; 7; 8; 9])
  else Return (10 ^ 4, 75, [10; 11; 12; 13; 14; 15; 16]).

(** [for i, binlength in enumerate(midranges, 1): if length == binlength:
    return i]; falling out of the loop returns [None]. *)
Fixpoint freqbin_mid (midranges : list Z) (i : Z) (length : Z) : option Z :=
  match midranges with
  | [] => None
  | binlength :: midranges' =>
      if decide (length = binlength) then Some i
      else freqbin_mid midranges' (i + 1) length
  end.

(** The closure [freqbin(length)] of [longest_runs]: a bin index, or
    [None] when no branch returns. *)
Definition freqbin (freqbinranges : list Z) (length : Z)
  : result (option Z) :=
  minrange ← getitem freqbinranges 0;
  let midranges := slice freqbinranges 1 (len freqbinranges - 1) in
  maxrange ← getitem freqbinranges (-1);
  if decide (length ≤ minrange) then Return (Some 0)
  else if decide (minrange < length < maxrange)
       then Return (freqbin_mid midranges 1 length)
  else if decide (maxrange ≤ length)
       then let maxbin := len freqbinranges in Return (Some maxbin)
  else Return None.

(** The table [probabilities] of [longest_runs]. *)
Definition probabilities (blocksize : Z) : result (list float) :=
  let tenthousandths := fmap (λ m : Z, decimal m 4) in
  if decide (blocksize = 8)
  then Return (tenthousandths [2148; 3672; 2305; 1875])
  else if decide (blocksize = 128)
  then Return (tenthousandths [1174; 2430; 2493; 1752; 1027; 1124])
  else if decide (blocksize = 512)
  then Return (tenthousandths [1170; 2460; 2523; 1755; 1027; 1124])
  else if decide (blocksize = 1000)
  then Return (tenthousandths [1307; 2437; 2452; 1714; 1002; 1088])
  else if decide (blocksize = 10000)
  then Return (tenthousandths [882; 2092; 2483; 1933; 1208; 675; 727])
  else Raise NotImplementedError.

(** The longest run of [candidate] in one chunk: [maxlen] after the
    inner [for run in candidateruns] loop. *)
Definition longest_candidate_run (candidate : A) (chunk : list A)
  : result Z :=
  rs ← asruns chunk;
  let candidateruns := filter (λ run, Run.value run = candidate) rs in
  Return (foldl (λ maxlen run,
                   if decide (Run.length run > maxlen)
                   then Run.length run else maxlen)
                0 candidateruns).

(** [for length in maxlengths: freqbins[freqbin(length)] += 1] *)
Fixpoint tally (freqbinranges : list Z) (freqbins : list Z)
    (maxlengths : list Z) : result (list Z) :=
  match maxlengths with
  | [] => Return freqbins
  | length :: maxlengths' =>
      i ← freqbin freqbinranges length;
      freqbins' ← increment_item freqbins i;
      tally freqbinranges freqbins' maxlengths'
  end.

(** The body of [longest_runs(series, candidate)]. *)
Definition longest_runs (series : list A) (candidate : A)
  : result TestResult.t :=
  let n := len series in
  '(blocksize, nblocks, freqbinranges) ← longest_runs_constants n;
  let df := len freqbinranges - 1 in
  maxlenprobabilities ← probabilities blocksize;
  maxlengths ← mapM (longest_candidate_run candidate)
                    (chunks series blocksize);
  let freqbins := (λ _ : Z, 0) <$> freqbinranges in
  freqbins ← tally freqbinranges freqbins maxlengths;
  let partials :=
    zip_with
      (λ prob bincount,
         fdiv (fpow (fsub (of_int bincount) (fmul (of_int nblocks) prob)) 2)
              (fmul (of_int nblocks) prob))
      maxlenprobabilities freqbins in
  let statistic := fsum partials in
  let p := gammaincc (fdiv (of_int df) (of_int 2))
                     (fdiv statistic (of_int 2)) in
  Return (TestResult.mk _ (Float statistic) p).
End RunsTests.

(** ** Template matching ([_template.py]) *)

Module NonOverlappingTemplateMatchingTestResult.
Record t `{FloatOps} {A : Type} : Type := mk {
  statistic : float;
  p : float;
  template : list A;
  matches_expect : float;
  variance : float;
  block_matches : list Z;
  match_diffs : list float
}.
Arguments t {_} A.
Arguments mk {_ A}.
End NonOverlappingTemplateMatchingTestResult.

Section TemplateMatching.
Context `{FloatOps} {A : Type} `{EqDecision A}.

Definition TemplateContainsElementsNotInSequenceError : exn :=
  "TemplateContainsElementsNotInSequenceError"%string.

(** The [wrapper] of the decorator [template]: the template handed to the
    decorated function.  Without a template it is the first tuple of
    [product(series.unique(), repeat=template_size)], the first distinct
    value repeated; a given template is checked against the values of
    the series. *)
Definition template_wrapper (series : list A) (template : option (list A))
  : result (list A) :=
  match template with
  | None =>
      let n := len series in
      let template_size := Z.min (Z.sqrt n) 9 in
      match series, Z.to_nat template_size with
      | _, O => Return []
      | [], S _ => Raise StopIteration
      | first_value :: _, S _ =>
          Return (replicate (Z.to_nat template_size) first_value)
      end
  | Some template =>
      if decide (Forall (λ value, value ∈ series) template)
      then Return template
      else Raise TemplateContainsElementsNotInSequenceError
  end.

(** [block_tup[pointer : pointer + template_size]] *)
Definition window (block_tup : list A) (pointer template_size : Z)
  : list A :=
  slice block_tup pointer (pointer + template_size).

(** [all(x == y for x, y in zip(window, template_tup))]: [zip] stops at
    the shorter of its arguments. *)
Definition all_equal (window template_tup : list A) : bool :=
  forallb (λ xy, bool_decide (xy.1 = xy.2)) (zip window template_tup).

(** The [while pointer < boundary] loop of
    [non_overlapping_template_matching]; [fuel] bounds the number of
    iterations and [None] means that it did not suffice. *)
Fixpoint non_overlapping_scan (fuel : nat) (block_tup template_tup : list A)
    (boundary pointer matches : Z) : option Z :=
  if decide (pointer < boundary) then
    match fuel with
    | O => None
    | S fuel' =>
        let template_size := len template_tup in
        if all_equal (window block_tup pointer template_size) template_tup
        then non_overlapping_scan fuel' block_tup template_tup boundary
               (pointer + template_size) (matches + 1)
        else non_overlapping_scan fuel' block_tup template_tup boundary
               (pointer + 1) matches
    end
  else Some matches.

(** The matches counted in one block.  A non-empty template moves the
    pointer by at least one each time round, so [length block_tup]
    iterations suffice ([non_overlapping_scan_terminates]); with an empty
    template the pointer never moves and the loop never exits
    ([non_overlapping_scan_empty_template]). *)
Definition non_overlapping_matches (template_tup block_tup : list A)
  : result Z :=
  let template_size := len template_tup in
  let boundary := len block_tup - template_size in
  match non_overlapping_scan (length block_tup) block_tup template_tup
          boundary 0 0 with
  | Some matches => Return matches
  | None => Diverges
  end.

(** [block_matches] after the [for block_tup in rawblocks(...)] loop. *)
Definition non_overlapping_block_matches (series template : list A)
    (blocksize : Z) : result (list Z) :=
  mapM (non_overlapping_matches template) (rawblocks series blocksize).

(** The dictionary [recommendations]: names and outcomes, in insertion
    order.  [n // blocksize] raises when [blocksize] is [0]. *)
Definition non_overlapping_recommendations (n blocksize nblocks : Z)
  : result (list (string * bool)) :=
  q ← floordiv n blocksize;
  Return [ ("nblocks <= 100"%string, bool_decide (nblocks ≤ 100));
           ("blocksize > 0.01 * n"%string,
            flt (fmul (decimal 1 2) (of_int n)) (of_int blocksize));
           ("nblocks == n // blocksize"%string, bool_decide (nblocks = q)) ].

(** [for rec, success in recommendations.items(): if success is False:
    warn(f"Input parameters fail recommendation {rec}", UserWarning)]:
    the messages of the warnings issued, in order. *)
Definition warn_failures (recommendations : list (string * bool))
  : list string :=
  (λ rec, String.append "Input parameters fail recommendation " rec.1)
    <$> filter (λ rec, rec.2 = false) recommendations.

(** Lines 100 to 137 of [non_overlapping_template_matching]: everything
    after the recommendations. *)
Definition non_overlapping_statistics (series template : list A)
    (nblocks blocksize : Z)
  : result (NonOverlappingTemplateMatchingTestResult.t A) :=
  let template_size := len template in
  let matches_expect :=
    fdiv (of_int (blocksize - template_size + 1))
         (of_int (2 ^ template_size)) in
  let variance :=
    fmul (of_int blocksize)
         (fsub (fdiv (of_int 1) (of_int (2 ^ template_size)))
               (fdiv (of_int (2 * template_size - 1))
                     (of_int (2 ^ (2 * template_size))))) in
  block_matches ← non_overlapping_block_matches series template blocksize;
  let match_diffs :=
    (λ matches : Z, fsub (of_int matches) matches_expect)
      <$> block_matches in
  terms ← mapM (λ diff, truediv (fpow diff 2) variance) match_diffs;
  let statistic := fsum terms in
  let p := gammaincc (fdiv (of_int nblocks) (of_int 2))
                     (fdiv statistic (of_int 2)) in
  Return (NonOverlappingTemplateMatchingTestResult.mk
            statistic p template matches_expect variance
            block_matches match_diffs).

(** The body of [non_overlapping_template_matching(series, template,
    nblocks)]: the warnings issued and the outcome. *)
Definition non_overlapping_template_matching (series template : list A)
    (nblocks : Z)
  : list string * result (NonOverlappingTemplateMatchingTestResult.t A) :=
  let n := len series in
  match floordiv n nblocks with
  | Return blocksize =>
      match non_overlapping_recommendations n blocksize nblocks with
      | Return recommendations =>
          (warn_failures recommendations,
           non_overlapping_statistics series template nblocks blocksize)
      | Raise e => ([], Raise e)
      | Diverges => ([], Diverges)
      end
  | Raise e => ([], Raise e)
  | Diverges => ([], Diverges)
  end.

(** The same body with lines 91 to 98 (the recommendations) removed. *)
Definition non_overlapping_template_matching_unchecked
    (series template : list A) (nblocks : Z)
  : result (NonOverlappingTemplateMatchingTestResult.t A) :=
  blocksize ← floordiv (len series) nblocks;
  non_overlapping_statistics series template nblocks blocksize.

(** The greedy scan the specification describes, over every start
    position at which the template fits in the block: positions
    [pointer .. len block - template_size] inclusive.  On a full match,
    count it and restart past it; otherwise advance by one. *)
Fixpoint greedy_matches (fuel : nat) (block template : list A)
    (pointer : Z) : Z :=
  match fuel with
  | O => 0
  | S fuel' =>
      if decide (pointer ≤ len block - len template) then
        if decide (slice block pointer (pointer + len template) = template)
        then 1 + greedy_matches fuel' block template (pointer + len template)
        else greedy_matches fuel' block template (pointer + 1)
      else 0
  end.

Definition greedy_non_overlapping_matches (template block : list A) : Z :=
  greedy_matches (S (length block)) block template 0.

(** The number of start positions [p] with [0 <= p <= blocksize - k] at
    which the whole template occurs. *)
Definition full_matches (block template : list A) : Z :=
  len (filter (λ pointer : Z,
                 slice block pointer (pointer + len template) = template)
              (seqZ 0 (len block - len template + 1))).

(** The matches counted in one block by
    [overlapping_template_matching]: [for pointer in range(blocksize)]. *)
Definition overlapping_matches (template_tup : list A) (blocksize : Z)
    (block_tup : list A) : Z :=
  let template_size := len template_tup in
  len (filter (λ pointer : Z,
                 all_equal (window block_tup pointer template_size)
                           template_tup = true)
              (seqZ 0 blocksize)).

(** [block_matches] after the [for block_tup in rawblocks(...)] loop of
    [overlapping_template_matching]. *)
Definition overlapping_block_matches (series template : list A)
    (blocksize : Z) : list Z :=
  overlapping_matches template blocksize <$> rawblocks series blocksize.

(** [for matches in block_matches: i = min(matches, 5); tallies[i] += 1] *)
Fixpoint tally_matches (tallies : list Z) (block_matches : list Z)
  : result (list Z) :=
  match block_matches with
  | [] => Return tallies
  | matches :: block_matches' =>
      let i := Z.min matches 5 in
      tallies' ← increment_item tallies (Some i);
      tally_matches tallies' block_matches'
  end.

(** The body of [overlapping_template_matching(series, template,
    nblocks)]. *)
Definition overlapping_template_matching (series template : list A)
    (nblocks : Z) : result TestResult.t :=
  let n := len series in
  blocksize ← floordiv n nblocks;
  let template_size := len template in
  let block_matches :=
    overlapping_block_matches series template blocksize in
  tallies ← tally_matches (replicate 6 0) block_matches;
  let lambda_ :=
    fdiv (of_int (blocksize - template_size + 1))
         (of_int (2 ^ template_size)) in
  let eta := fdiv lambda_ (of_int 2) in
  let probabilities :=
    (λ x : Z,
       fmul (fdiv (fmul eta (fexp (fmul (of_int (-2)) eta)))
                  (of_int (2 ^ x)))
            (hyp1f1 (of_int (x + 1)) (of_int 2) eta))
      <$> seqZ 0 (len tallies) in
  let statistic :=
    fsum (zip_with
            (λ tally probability,
               fdiv (fpow (fsub (of_int tally)
                                (fmul (of_int nblocks) probability)) 2)
                    (fmul (of_int nblocks) probability))
            tallies probabilities) in
  let df := len tallies - 1 in
  let p := gammaincc (fdiv (of_int df) (of_int 2))
                     (fdiv statistic (of_int 2)) in
  Return (TestResult.mk _ (Float statistic) p).
End TemplateMatching.

(** ** Spectral test ([fourier.py], both versions) *)

Module DiscreteFourierTransformTestResult.
Record t `{FloatOps} : Type := mk {
  statistic : float;
  p : float;
  nbelow_expected : float;
  nbelow : Z;
  diff : float
}.
End DiscreteFourierTransformTestResult.

(** [SpectralTestResult(failures, heads, tails, normdiff, p, nbelow_expect,
    nbelow, diff)]: the first five fields are those of the base class. *)
Module SpectralTestResult.
Record t `{FloatOps} {A : Type} : Type := mk {
  failures : list string;
  heads : A;
  tails : A;
  statistic : float;
  p : float;
  nbelow_expect : float;
  nbelow : Z;
  diff : float
}.
Arguments t {_} A.
Arguments mk {_ A}.
End SpectralTestResult.

Section Spectral.
Context `{FloatOps} {A : Type} `{EqDecision A}.

(** [series.unique()]: the distinct values, in order of first
    appearance. *)
Fixpoint unique_from (seen : list A) (series : list A) : list A :=
  match series with
  | [] => []
  | value :: series' =>
      if decide (value ∈ seen) then unique_from seen series'
      else value :: unique_from (value :: seen) series'
  end.
Definition unique (series : list A) : list A := unique_from [] series.

(** [series.nunique()] *)
Definition nunique (series : list A) : Z := len (unique series).

(** Modelled from the spec: [check_recommendations] of
    [coinflip._randtests.common.core], which [src/] does not contain.  A
    mapping from condition name to boolean; the names of the false
    entries are the failures recorded on the result. *)
Definition check_recommendations (recommendations : list (string * bool))
  : list string :=
  fst <$> filter (λ rec, rec.2 = false) recommendations.

(** [sqrt(log(1 / 0.05) * n)] *)
Definition threshold_of (n : Z) : float :=
  fsqrt (fmul (flog (fdiv (of_int 1) (decimal 5 2))) (of_int n)).

(** [0.95 * n / 2] *)
Definition nbelow_expect_of (n : Z) : float :=
  fdiv (fmul (decimal 95 2) (of_int n)) (of_int 2).

(** [series.map({peak: 1, trough: -1})]: in a dictionary display the
    later of two equal keys wins, and a value that is not a key maps to
    NaN. *)
Definition oscillations_of (series : list A) (peak trough : A)
  : list float :=
  (λ value, if decide (value = trough) then of_int (-1)
            else if decide (value = peak) then of_int 1
            else nan) <$> series.

(** [numpy.fft.fft] and [scipy.fft.fft] refuse an empty array. *)
Definition fft_checked (oscillations : list float)
  : result (list complex) :=
  match oscillations with
  | [] => Raise ValueError
  | _ => Return (fft oscillations)
  end.

(** [sum(peaks < threshold)] *)
Definition count_below (threshold : float) (peaks : list float) : Z :=
  len (filter (λ peak, flt peak threshold = true) peaks).

(** [diff / sqrt((n * 0.95 * 0.05) / 4)] *)
Definition normalise (n : Z) (diff : float) : float :=
  fdiv diff
       (fsqrt (fdiv (fmul (fmul (of_int n) (decimal 95 2)) (decimal 5 2))
                    (of_int 4))).

(** [erfc(abs(normdiff) / sqrt(2))] *)
Definition two_sided_p (normdiff : float) : float :=
  ferfc (fdiv (fabs normdiff) (fsqrt (of_int 2))).

(** [if n % 2 != 0: series = series[:-1]; if series.nunique() != 2:
    raise NonBinaryTruncatedSequenceError()]: the value of the variable
    [series] afterwards.  The variable [n] is not assigned again. *)
Definition truncate_to_even (n : Z) (series : list A) : result (list A) :=
  if decide (n `mod` 2 ≠ 0) then
    let series := slice series 0 (len series - 1) in
    if decide (nunique series ≠ 2)
    then Raise NonBinaryTruncatedSequenceError
    else Return series
  else Return series.

(** The body of [discrete_fourier_transform(series, candidate)]
    ([rngtest]). *)
Definition discrete_fourier_transform (series : list A) (candidate : A)
  : result DiscreteFourierTransformTestResult.t :=
  let n := len series in
  series ← truncate_to_even n series;
  let threshold := threshold_of n in
  let nbelow_expected := nbelow_expect_of n in
  let peak := candidate in
  trough ← match filter (λ value, value ≠ candidate) (unique series) with
           | [] => Raise StopIteration
           | value :: _ => Return value
           end;
  let oscillations := oscillations_of series peak trough in
  fourier ← fft_checked oscillations;
  let half_fourier := slice fourier 0 (n `div` 2) in
  let peaks := cabs <$> half_fourier in
  let nbelow := count_below threshold peaks in
  let diff := fsub (of_int nbelow) nbelow_expected in
  let normdiff := normalise n diff in
  let p := two_sided_p normdiff in
  Return (DiscreteFourierTransformTestResult.mk _
            normdiff p nbelow_expected nbelow diff).

(** Lines 37 to 68 of [spectral]: everything after the recommendation
    check, whose outcome is only stored in the result.  The progress
    calls [set_task_total] and [advance_task] have no effect on values
    and are left out. *)
Definition spectral_statistics (failures : list string) (series : list A)
    (heads tails : A) : result (SpectralTestResult.t A) :=
  let n := len series in
  series ← truncate_to_even n series;
  let threshold := threshold_of n in
  let nbelow_expect := nbelow_expect_of n in
  let oscillations := oscillations_of series heads tails in
  fourier ← fft_checked oscillations;
  let half_fourier := slice fourier 0 (n `div` 2) in
  let peaks := cabs <$> half_fourier in
  let nbelow := count_below threshold peaks in
  let diff := fsub (of_int nbelow) nbelow_expect in
  let normdiff := normalise n diff in
  let p := two_sided_p normdiff in
  Return (SpectralTestResult.mk
            failures heads tails normdiff p nbelow_expect nbelow diff).

(** The body of [spectral(series, heads, tails, ctx)] ([coinflip]). *)
Definition spectral (series : list A) (heads tails : A)
  : result (SpectralTestResult.t A) :=
  let n := len series in
  let failures :=
    check_recommendations [("n ≥ 1000"%string, bool_decide (1000 ≤ n))] in
  spectral_statistics failures series heads tails.
End Spectral.

(** ** Real-number reading of the float interface

    The interface read over the real numbers, without rounding: a float is
    a real number or NaN ([None]), an operation outside its real domain
    (a zero divisor, the square root of a negative number) gives NaN, and
    the special functions are their defining series. *)
Module Ideal.
Definition series_sum (u : nat → R) : R :=
  epsilon (inhabits 0%R) (infinite_sum u).
Definition limit (u : nat → R) : R :=
  epsilon (inhabits 0%R) (Un_cv u).

(** [a (a + 1) ... (a + n - 1)] *)
Fixpoint rising (a : R) (n : nat) : R :=
  match n with
  | O => 1%R
  | S n' => (rising a n' * (a + INR n'))%R
  end.

(** [erfc x = 1 - 2/sqrt(pi) * sum_n (-1)^n x^(2n+1) / (n! (2n+1))] *)
Definition erfc (x : R) : R :=
  (1 - 2 / sqrt PI *
       series_sum (λ n, (-1) ^ n * x ^ (2 * n + 1)
                        / (INR (fact n) * INR (2 * n + 1))))%R.

(** Kummer's function [M(a, b, z) = sum_n (a)_n z^n / ((b)_n n!)] *)
Definition kummer (a b z : R) : R :=
  series_sum (λ n, rising a n * z ^ n / (rising b n * INR (fact n)))%R.

(** Euler's limit [Gamma(a) = lim_n n! n^a / (a (a+1) ... (a+n))] *)
Definition Gamma (a : R) : R :=
  limit (λ n, INR (fact n) * Rpower (INR n) a / rising a (S n))%R.

(** The regularized upper incomplete gamma function for [0 < a] and
    [0 < x]:
    [Q(a, x) = 1 - x^a e^(-x) sum_n x^n / (a (a+1) ... (a+n)) / Gamma(a)] *)
Definition upper_gamma (a x : R) : R :=
  (1 - Rpower x a * exp (- x)
       * series_sum (λ n, x ^ n / rising a (S n)) / Gamma a)%R.

(** The discrete Fourier transform
    [X_k = sum_j x_j (cos (2 pi j k / N) - i sin (2 pi j k / N))] *)
Definition dft (xs : list R) : list (R * R) :=
  let N := INR (length xs) in
  (λ k : nat,
     (foldr Rplus 0%R
        (imap (λ j x, x * cos (2 * PI * INR j * INR k / N))%R xs),
      foldr Rplus 0%R
        (imap (λ j x, - (x * sin (2 * PI * INR j * INR k / N)))%R xs)))
    <$> seq 0 (length xs).

Definition lift1 (f : R → R) (x : option R) : option R := f <$> x.
Definition lift2 (f : R → R → R) (x y : option R) : option R :=
  a ← x; b ← y; Some (f a b).

#[export] Instance ops : FloatOps := {|
  float := option R;
  complex := option (R * R);
  of_int := λ i, Some (IZR i);
  decimal := λ m d, Some (IZR m / IZR (10 ^ d))%R;
  nan := None;
  fadd := lift2 Rplus;
  fsub := lift2 Rminus;
  fmul := lift2 Rmult;
  fdiv := λ x y,
    a ← x; b ← y; if Req_dec_T b 0 then None else Some (a / b)%R;
  fpow := λ x k, lift1 (λ a, powerRZ a k) x;
  fabs := lift1 Rabs;
  fsqrt := λ x, a ← x; if Rlt_dec a 0 then None else Some (sqrt a);
  flog := λ x, a ← x; if Rle_dec a 0 then None else Some (ln a);
  fexp := lift1 exp;
  ferfc := lift1 erfc;
  flt := λ x y,
    match x, y with
    | Some a, Some b => if Rlt_dec a b then true else false
    | _, _ => false
    end;
  fis_zero := λ x,
    match x with
    | Some a => if Req_dec_T a 0 then true else false
    | None => false
    end;
  gammaincc := λ a x,
    a ← a; x ← x;
    if Rle_dec a 0 then None
    else if Rlt_dec x 0 then None
    else if Req_dec_T x 0 then Some 1%R
    else Some (upper_gamma a x);
  hyp1f1 := λ a b z, a ← a; b ← b; z ← z; Some (kummer a b z);
  fft := λ xs,
    match mapM (M := option) (λ x : option R, x) xs with
    | Some reals => Some <$> dft reals
    | None => (λ _, None) <$> xs
    end;
  cabs := λ c, c ← c; Some (sqrt (c.1 * c.1 + c.2 * c.2))
|}.
End Ideal.

(** ** Failed recommendations on a result *)

#[global] Instance result_fmap : FMap result := λ T U f m,
  match m with
  | Return x => Return (f x)
  | Raise e => Raise e
  | Diverges => Diverges
  end.

(** The failed recommendations a result object carries. *)
Class Recorded (R : Type) : Type := recorded : R → list string.

(** [NonOverlappingTemplateMatchingTestResult] has no field for them. *)
#[global] Instance non_overlapping_recorded `{FloatOps} {A : Type}
  : Recorded (NonOverlappingTemplateMatchingTestResult.t A) := λ _, [].

(** [SpectralTestResult] has [failures]. *)
#[global] Instance spectral_recorded `{FloatOps} {A : Type}
  : Recorded (SpectralTestResult.t A) := SpectralTestResult.failures.

(** A spectral result with its [failures] replaced. *)
Definition with_failures `{FloatOps} {A : Type} (failures : list string)
    (r : SpectralTestResult.t A) : SpectralTestResult.t A :=
  SpectralTestResult.mk failures
    (SpectralTestResult.heads r) (SpectralTestResult.tails r)
    (SpectralTestResult.statistic r) (SpectralTestResult.p r)
    (SpectralTestResult.nbelow_expect r) (SpectralTestResult.nbelow r)
    (SpectralTestResult.diff r).

(** ** Inputs *)

(** The sixteen blocks [1 1 1 1 0 0 0 0]: 128 elements, two distinct
    values, and in every block the longest run of ones has length 4. *)
Definition four_ones_per_block : list Z :=
  concat (replicate 16 [1; 1; 1; 1; 0; 0; 0; 0]).

(** A block of 35 zeros and a final one, and the 288-element sequence of
    eight such blocks. *)
Definition final_one_block : list Z := replicate 35 0 ++ [1].
Definition final_one_series : list Z := concat (replicate 8 final_one_block).

(** ** Measures used to state further properties *)


(** A list occurs in a sequence as a stretch of consecutive elements. *)
Definition occurs_in {A : Type} (part series : list A) : Prop :=
  ∃ before after, series = before ++ part ++ after.


(** ** Theorems *)

Section AsRunsFacts.
Context {A : Type} `{EqDecision A}.

Lemma adjacent_differ_cons (r r' : Run.t A) (rs : list (Run.t A)) :
  Run.value r ≠ Run.value r' →
  adjacent_differ (r' :: rs) →
  adjacent_differ (r :: r' :: rs).
Proof.
  intros Hne Hadj [|i] r1 r2 H1 H2; simpl in *.
  - by simplify_eq.
  - by apply (Hadj i).
Qed.

Lemma adjacent_differ_singleton (r : Run.t A) : adjacent_differ [r].
Proof. intros [|i] r1 r2 H1 H2; simpl in *; discriminate. Qed.

Lemma asruns_loop_spec (items : list A) :
  ∀ (v : A) (k : Z), 1 ≤ k →
    let rs := asruns_loop (Run.mk v k) items in
    Forall (λ r, 1 ≤ Run.length r) rs
    ∧ adjacent_differ rs
    ∧ total_length rs = k + len items
    ∧ concat (stretch <$> rs) = replicate (Z.to_nat k) v ++ items
    ∧ ∃ r rest, rs = r :: rest ∧ Run.value r = v.
Proof.
  induction items as [|x items IH]; intros v k Hk; simpl.
  - split_and!.
    + by constructor.
    + apply adjacent_differ_singleton.
    + unfold total_length, len; simpl; lia.
    + unfold stretch; simpl. by rewrite !app_nil_r.
    + by eexists _, _.
  - destruct (decide (x = v)) as [->|Hne].
    + destruct (IH v (k + 1) ltac:(lia)) as (Hlen & Hadj & Hsum & Hcat & Hhd).
      split_and!; try done.
      * rewrite Hsum. unfold len; simpl length; lia.
      * rewrite Hcat.
        replace (Z.to_nat (k + 1)) with (Z.to_nat k + 1)%nat by lia.
        rewrite replicate_add; simpl. by rewrite <- app_assoc.
    + destruct (IH x 1 ltac:(lia)) as (Hlen & Hadj & Hsum & Hcat & Hhd).
      destruct Hhd as (r & rest & Hrs & Hr).
      split_and!.
      * by constructor.
      * rewrite Hrs. apply adjacent_differ_cons; [by rewrite Hr|].
        by rewrite <- Hrs.
      * unfold total_length in *; simpl. rewrite Hsum. unfold len; simpl length; lia.
      * rewrite fmap_cons. cbn [concat]. rewrite Hcat.
        by unfold stretch; simpl.
      * by eexists _, _.
Qed.

End AsRunsFacts.



(** C5.  For every [n >= 128] the constants of [longest_runs] are those of
    the table: block size 8, 16 blocks and 4 bins below 6272; block size
    128, 49 blocks and 6 bins from 6272 and below 750000; block size 10000,
    75 blocks and 7 bins from 750000.  In particular 6271 and 749999 select
    the lower regimes, 6272 and 750000 the higher ones. *)
Theorem longest_runs_regime (n : Z) :
  128 ≤ n →
  (∃ blocksize nblocks freqbinranges,
     longest_runs_constants n = Return (blocksize, nblocks, freqbinranges)
     ∧ (n < 6272 →
        blocksize = 8 ∧ nblocks = 16 ∧ len freqbinranges = 4)
     ∧ (6272 ≤ n < 750000 →
        blocksize = 128 ∧ nblocks = 49 ∧ len freqbinranges = 6)
     ∧ (750000 ≤ n →
        blocksize = 10000 ∧ nblocks = 75 ∧ len freqbinranges = 7))
  ∧ longest_runs_constants 6271 = Return (8, 16, [1; 2; 3; 4])
  ∧ longest_runs_constants 6272 = Return (128, 49, [4; 5; 6; 7; 8; 9])
  ∧ longest_runs_constants 749999 = Return (128, 49, [4; 5; 6; 7; 8; 9])
  ∧ longest_runs_constants 750000
    = Return (10000, 75, [10; 11; 12; 13; 14; 15; 16]).
Proof.
  intros Hn. split; [|by split_and!].
  unfold longest_runs_constants.
  rewrite decide_False by lia.
  destruct (decide (n < 6272)); [|destruct (decide (n < 750000))];
    eexists _, _, _; (split; [reflexivity|]); split_and!; intros;
    first [lia | by split_and!].
Qed.

Lemma longest_runs_regime_witness :
  128 ≤ 6272 ∧
  ((∃ blocksize nblocks freqbinranges,
      longest_runs_constants 6272 = Return (blocksize, nblocks, freqbinranges)
      ∧ (6272 < 6272 →
         blocksize = 8 ∧ nblocks = 16 ∧ len freqbinranges = 4)
      ∧ (6272 ≤ 6272 < 750000 →
         blocksize = 128 ∧ nblocks = 49 ∧ len freqbinranges = 6)
      ∧ (750000 ≤ 6272 →
         blocksize = 10000 ∧ nblocks = 75 ∧ len freqbinranges = 7))
   ∧ longest_runs_constants 6271 = Return (8, 16, [1; 2; 3; 4])
   ∧ longest_runs_constants 6272 = Return (128, 49, [4; 5; 6; 7; 8; 9])
   ∧ longest_runs_constants 749999 = Return (128, 49, [4; 5; 6; 7; 8; 9])
   ∧ longest_runs_constants 750000
     = Return (10000, 75, [10; 11; 12; 13; 14; 15; 16])).
Proof.
  split; [lia|]. apply (longest_runs_regime 6272). lia.
Defined.

(** Incrementing [xs[len(xs)]] is an [IndexError]. *)
Lemma increment_item_past_the_end (xs : list Z) :
  increment_item xs (Some (len xs)) = Raise IndexError.
Proof.
  unfold increment_item, list_index. cbv zeta.
  destruct (decide (len xs < 0)); [unfold len in *; lia|].
  by rewrite decide_False by lia.
Qed.

(** Evaluate the list accesses of [freqbin] on a literal list of
    boundaries. *)
Ltac eval_boundaries :=
  repeat match goal with
    | |- context [getitem ?l ?i] =>
        let v := eval vm_compute in (getitem l i) in
        change (getitem l i) with v
    | |- context [slice ?l ?lo ?hi] =>
        let v := eval vm_compute in (slice l lo hi) in
        change (slice l lo hi) with v
    | |- context [len ?l] =>
        let v := eval vm_compute in (len l) in
        change (len l) with v
    end;
  cbn [mbind result_bind].

Ltac split_freqbin :=
  unfold freqbin; eval_boundaries;
  repeat (case_decide; try lia; cbn [freqbin_mid]).

(** What [freqbin] returns in each of the three regimes.  Below the
    highest boundary it is the bin of the specification: bin 0 up to the
    lowest boundary, and the boundary's own bin after that. *)
Lemma freqbin_below_highest (n blocksize nblocks : Z) (freqbinranges : list Z)
    (lowest maxlen : Z) :
  longest_runs_constants n = Return (blocksize, nblocks, freqbinranges) →
  head freqbinranges = Some lowest →
  maxlen < lowest + len freqbinranges - 1 →
  freqbin freqbinranges maxlen = Return (Some (Z.max 0 (maxlen - lowest)))
  ∧ 0 ≤ Z.max 0 (maxlen - lowest) < len freqbinranges - 1.
Proof.
  unfold longest_runs_constants. intros Hc Hlo Hlen.
  repeat case_decide; simplify_eq/=; revert Hlen; eval_boundaries;
    intros Hlen; (split; [|lia]); split_freqbin;
    do 2 f_equal; lia.
Qed.

(** From the highest boundary on it is the number of bins, which is not
    the index of a bin. *)
Lemma freqbin_from_highest (n blocksize nblocks : Z) (freqbinranges : list Z)
    (lowest maxlen : Z) :
  longest_runs_constants n = Return (blocksize, nblocks, freqbinranges) →
  head freqbinranges = Some lowest →
  lowest + len freqbinranges - 1 ≤ maxlen →
  freqbin freqbinranges maxlen = Return (Some (len freqbinranges))
  ∧ ∀ freqbins : list Z,
      len freqbins = len freqbinranges →
      increment_item freqbins (Some (len freqbinranges)) = Raise IndexError.
Proof.
  unfold longest_runs_constants. intros Hc Hlo Hlen.
  split; [|by intros freqbins <-; apply increment_item_past_the_end].
  repeat case_decide; simplify_eq/=; revert Hlen; eval_boundaries;
    intros Hlen; split_freqbin; done.
Qed.

(** C1.  In the 8/16/4-bin regime a block whose longest candidate run has
    length 4, the highest boundary, is given bin index 4 by [freqbin]
    ([maxbin = len(freqbinranges)]), one past the last of the four bins:
    the increment raises [IndexError], and so does [longest_runs] on the
    128-element sequence [four_ones_per_block]. *)
Theorem longest_runs_last_bin_out_of_range `{FloatOps} :
  len four_ones_per_block = 128
  ∧ longest_candidate_run 1 [1; 1; 1; 1; 0; 0; 0; 0] = Return 4
  ∧ freqbin [1; 2; 3; 4] 4 = Return (Some 4)
  ∧ increment_item [0; 0; 0; 0] (Some 4) = Raise IndexError
  ∧ longest_runs four_ones_per_block 1 = Raise IndexError.
Proof. split_and!; reflexivity. Qed.

(** C6, as the code has it.  For every sequence of fewer than 128
    elements [longest_runs] raises the built-in [ValueError] before
    anything is computed, and returns no result. *)
Theorem longest_runs_short_sequence `{FloatOps} {A : Type} `{EqDecision A}
    (series : list A) (candidate : A) :
  len series < 128 →
  longest_runs series candidate = Raise ValueError.
Proof.
  intros Hn. unfold longest_runs, longest_runs_constants.
  by rewrite decide_True.
Qed.

Lemma longest_runs_short_sequence_witness :
  len [0; 1] < 128 ∧
  longest_runs (H := Ideal.ops) [0; 1] 1 = Raise ValueError.
Proof.
  split; [reflexivity|]. apply longest_runs_short_sequence. reflexivity.
Defined.

(** C6, counterexample.  On the two-element sequence [0 1] the exception
    raised is [ValueError], not [InsufficientSequenceLength]. *)
Lemma longest_runs_short_sequence_counterexample :
  len [0; 1] < 128
  ∧ longest_runs (H := Ideal.ops) [0; 1] 1 = Raise ValueError
  ∧ longest_runs (H := Ideal.ops) [0; 1] 1
    ≠ Raise InsufficientSequenceLength.
Proof. split_and!; [reflexivity | reflexivity | discriminate]. Qed.

(** ** Template matching: the scans *)

Section ScanFacts.
Context {A : Type} `{EqDecision A}.

Lemma length_slice (xs : list A) (lo hi : Z) :
  0 ≤ lo → lo ≤ hi → hi ≤ len xs → len (slice xs lo hi) = hi - lo.
Proof.
  intros Hlo Hle Hhi. unfold slice, len in *.
  rewrite length_take, length_drop. lia.
Qed.

Lemma length_window (xs t : list A) (pointer : Z) :
  0 ≤ pointer → pointer + len t ≤ len xs →
  length (slice xs pointer (pointer + len t)) = length t.
Proof.
  intros Hp Hfit. apply Nat2Z.inj.
  assert (0 ≤ len t) by (unfold len; lia).
  etrans; [apply (length_slice xs pointer (pointer + len t)); lia|].
  unfold len; lia.
Qed.

Lemma slice_removelast (xs : list A) (lo hi : Z) :
  0 ≤ lo → hi ≤ len xs - 1 →
  slice (removelast xs) lo hi = slice xs lo hi.
Proof.
  intros Hlo Hhi. unfold slice, len in *.
  destruct xs as [|x0 xs']; [done|].
  assert (x0 :: xs' ≠ []) as Hne by done.
  revert Hne Hhi. generalize (x0 :: xs'). intros xs Hne Hhi.
  rewrite (app_removelast_last x0 Hne) at 2.
  assert (length xs = S (length (removelast xs))) as Hlen.
  { rewrite (app_removelast_last x0 Hne) at 1.
    rewrite length_app; simpl; lia. }
  destruct (decide (lo ≤ hi)) as [Hle|Hgt].
  - rewrite drop_app_le by lia. rewrite take_app_le; [done|].
    rewrite length_drop. lia.
  - replace (Z.to_nat (hi - lo)) with 0%nat by lia. done.
Qed.

(** On a window as long as the template, comparing the zipped pairs is
    comparing the lists. *)
Lemma all_equal_full (w t : list A) :
  length w = length t → all_equal w t = true ↔ w = t.
Proof.
  unfold all_equal. revert t.
  induction w as [|x w IH]; intros [|y t] Hlen; simplify_eq/=; [done|].
  rewrite andb_true_iff, bool_decide_eq_true, IH by done.
  split; [by intros [-> ->]|by intros [= -> ->]].
Qed.

(** A non-empty template moves the pointer each time round: the loop
    exits within [boundary - pointer] iterations. *)
Lemma non_overlapping_scan_terminates (fuel : nat)
    (block_tup template_tup : list A) (boundary pointer matches : Z) :
  template_tup ≠ [] →
  boundary - pointer ≤ Z.of_nat fuel →
  is_Some (non_overlapping_scan fuel block_tup template_tup
             boundary pointer matches).
Proof.
  intros Hne. assert (1 ≤ len template_tup) as Hk.
  { destruct template_tup; [done|]. unfold len; simpl; lia. }
  revert pointer matches.
  induction fuel as [|fuel IH]; intros pointer matches Hfuel; simpl.
  - rewrite decide_False by lia. by eexists.
  - case_decide; [|by eexists].
    destruct (all_equal _ _); apply IH; lia.
Qed.

(** With an empty template the pointer never moves: no number of
    iterations suffices. *)
Lemma non_overlapping_scan_empty_template (fuel : nat)
    (block_tup : list A) (boundary pointer matches : Z) :
  pointer < boundary →
  non_overlapping_scan fuel block_tup [] boundary pointer matches = None.
Proof.
  intros Hlt. revert matches.
  induction fuel as [|fuel IH]; intros matches; simpl;
    rewrite decide_True by done; [done|].
  unfold all_equal, window. rewrite zip_with_nil_r. simpl.
  change (len []) with 0. rewrite Z.add_0_r. apply IH.
Qed.

Lemma non_overlapping_matches_empty_template (block_tup : list A) :
  block_tup ≠ [] → non_overlapping_matches [] block_tup = Diverges.
Proof.
  intros Hne. unfold non_overlapping_matches.
  rewrite non_overlapping_scan_empty_template; [done|].
  destruct block_tup; [done|]. unfold len; simpl; lia.
Qed.

(** The loop of the code is the greedy scan of the specification run on
    the block without its final element: its bound [pointer < len block
    - k] leaves out the start position [len block - k]. *)
Lemma non_overlapping_scan_greedy (fuel : nat)
    (block_tup template_tup : list A) (pointer matches : Z) :
  template_tup ≠ [] →
  0 ≤ pointer →
  len block_tup - len template_tup - pointer ≤ Z.of_nat fuel →
  non_overlapping_scan fuel block_tup template_tup
    (len block_tup - len template_tup) pointer matches
  = Some (matches
          + greedy_matches fuel (removelast block_tup) template_tup
              pointer).
Proof.
  intros Hne. assert (1 ≤ len template_tup) as Hk.
  { destruct template_tup; [done|]. unfold len; simpl; lia. }
  assert (len (removelast block_tup) = Z.max 0 (len block_tup - 1))
    as Hlast.
  { unfold len. destruct block_tup as [|x0 block']; [done|].
    assert (x0 :: block' ≠ []) as Hb by done.
    revert Hb. generalize (x0 :: block'). intros block_tup Hb.
    rewrite (app_removelast_last x0 Hb) at 2.
    rewrite length_app; simpl; lia. }
  revert pointer matches.
  induction fuel as [|fuel IH]; intros pointer matches Hp Hfuel; simpl.
  - rewrite decide_False by lia. f_equal; lia.
  - rewrite Hlast.
    destruct (decide (pointer < len block_tup - len template_tup))
      as [Hlt|Hge].
    + rewrite decide_True by lia.
      rewrite slice_removelast by lia.
      unfold window.
      destruct (all_equal _ _) eqn:Hall.
      * apply all_equal_full in Hall; [|apply length_window; lia].
        rewrite decide_True by done.
        rewrite IH by lia. f_equal; lia.
      * rewrite decide_False; [apply IH; lia|].
        intros Heq. apply not_true_iff_false in Hall. apply Hall.
        apply all_equal_full; [apply length_window; lia|done].
    + rewrite decide_False by lia. f_equal; lia.
Qed.

Lemma non_overlapping_matches_greedy (template_tup block_tup : list A) :
  template_tup ≠ [] →
  non_overlapping_matches template_tup block_tup
  = Return (greedy_matches (length block_tup) (removelast block_tup)
              template_tup 0).
Proof.
  intros Hne. unfold non_overlapping_matches.
  rewrite non_overlapping_scan_greedy; [done..|].
  assert (0 ≤ len template_tup) by (unfold len; lia). unfold len in *. lia.
Qed.
End ScanFacts.

Section OverlappingFacts.
Context {A : Type} `{EqDecision A}.

(** The last start position of a block is compared on one element only:
    [zip] cuts the template down to the one-element window, so a block
    that ends with the first element of a longer template is counted a
    match there. *)
Lemma overlapping_tail_window (init : list A) (x : A) (template : list A) :
  head template = Some x →
  all_equal (window (init ++ [x]) (len (init ++ [x]) - 1) (len template))
            template = true.
Proof.
  destruct template as [|y template]; intros Hhd; simplify_eq/=.
  unfold window, slice, len. rewrite length_app. simpl length.
  replace (Z.to_nat (Z.of_nat (length init + 1) - 1)) with (length init)
    by lia.
  rewrite drop_app_length.
  replace (Z.to_nat _) with (S (length template)) by lia.
  unfold all_equal. cbn [take zip zip_with forallb fst snd].
  rewrite bool_decide_eq_true_2, take_nil by done. done.
Qed.
End OverlappingFacts.

Section StatisticsFacts.
Context `{FloatOps} {A : Type} `{EqDecision A}.

Lemma mapM_Return {X Y : Type} (f : X → result Y) (g : X → Y)
    (xs : list X) :
  (∀ x, x ∈ xs → f x = Return (g x)) →
  mapM f xs = Return (g <$> xs).
Proof.
  induction xs as [|x xs IH]; intros Hf; [done|].
  cbn. rewrite (Hf x) by by left. cbn.
  rewrite IH by (intros y Hy; apply Hf; by right). done.
Qed.

(** With a non-empty template and a variance other than zero, the
    statistics are computed and a result is returned. *)
Lemma non_overlapping_statistics_returns (series template : list A)
    (nblocks blocksize : Z) :
  template ≠ [] →
  fis_zero
    (fmul (of_int blocksize)
       (fsub (fdiv (of_int 1) (of_int (2 ^ len template)))
             (fdiv (of_int (2 * len template - 1))
                   (of_int (2 ^ (2 * len template)))))) = false →
  ∃ r, non_overlapping_statistics series template nblocks blocksize
       = Return r.
Proof.
  intros Hne Hvar. unfold non_overlapping_statistics,
    non_overlapping_block_matches.
  rewrite (mapM_Return _
    (λ block, greedy_matches (length block) (removelast block) template 0))
    by (intros block _; by apply non_overlapping_matches_greedy).
  cbn [mbind result_bind].
  erewrite mapM_Return; [by eexists|].
  intros diff _. unfold truediv. by rewrite Hvar.
Qed.

(** The [block_matches] of a returned result are those of the loop. *)
Lemma non_overlapping_statistics_block_matches (series template : list A)
    (nblocks blocksize : Z)
    (r : NonOverlappingTemplateMatchingTestResult.t A) :
  non_overlapping_statistics series template nblocks blocksize = Return r →
  non_overlapping_block_matches series template blocksize
  = Return (NonOverlappingTemplateMatchingTestResult.block_matches r).
Proof.
  unfold non_overlapping_statistics.
  destruct (non_overlapping_block_matches _ _ _) as [block_matches| |];
    [|done..].
  cbn [mbind result_bind]. destruct (mapM _ _); [|done..].
  cbn [mbind result_bind]. by intros [= <-].
Qed.
End StatisticsFacts.

(** ** The real-number reading on the inputs *)

Lemma ideal_fdiv (a b : R) :
  b ≠ 0%R → fdiv (FloatOps := Ideal.ops) (Some a) (Some b) = Some (a / b)%R.
Proof. intros Hb. cbn. by destruct (Req_dec_T b 0). Qed.

Lemma ideal_fis_zero (a : R) :
  a ≠ 0%R → fis_zero (FloatOps := Ideal.ops) (Some a) = false.
Proof. intros Ha. cbn. by destruct (Req_dec_T a 0). Qed.

(** The variance of the template [0 1] with blocks of [blocksize] elements
    is [blocksize (1/4 - 3/16)], which is zero for no block size but 0. *)
Lemma ideal_variance_nonzero (blocksize : Z) :
  blocksize ≠ 0 →
  fis_zero (FloatOps := Ideal.ops)
    (fmul (of_int blocksize)
       (fsub (fdiv (of_int 1) (of_int (2 ^ len [0; 1])))
             (fdiv (of_int (2 * len [0; 1] - 1))
                   (of_int (2 ^ (2 * len [0; 1])))))) = false.
Proof.
  intros Hblocksize.
  change (2 ^ len [0; 1]) with 4. change (2 * len [0; 1] - 1) with 3.
  change (2 ^ (2 * len [0; 1])) with 16.
  change (of_int (FloatOps := Ideal.ops) ?z) with (Some (IZR z)).
  rewrite !ideal_fdiv by lra.
  apply ideal_fis_zero. apply eq_IZR_contrapositive in Hblocksize. nra.
Qed.

(** C2.  With [nblocks = 8] the sequence [final_one_series] has blocks of
    36 elements, and the template [0 1] occurs in each block once, at
    start position 34 = blocksize - k, ending on the final element.  The
    greedy scan over positions 0 to 34 counts it; the loop of the code
    stops at [pointer < 34] and counts no match in any block: the result
    returned (no recommendation fails) has [block_matches = [0] * 8]. *)
Theorem non_overlapping_misses_final_position :
  len final_one_series = 288
  ∧ template_wrapper final_one_series (Some [0; 1]) = Return [0; 1]
  ∧ 288 `div` 8 = 36
  ∧ rawblocks final_one_series 36 = replicate 8 final_one_block
  ∧ slice final_one_block 34 36 = [0; 1]
  ∧ greedy_non_overlapping_matches [0; 1] final_one_block = 1
  ∧ non_overlapping_matches [0; 1] final_one_block = Return 0
  ∧ non_overlapping_block_matches final_one_series [0; 1] 36
    = Return (replicate 8 0)
  ∧ ∃ r, non_overlapping_template_matching (H := Ideal.ops)
           final_one_series [0; 1] 8 = ([], Return r)
         ∧ NonOverlappingTemplateMatchingTestResult.block_matches r
           = replicate 8 0.
Proof.
  split_and!; try reflexivity.
  destruct (non_overlapping_statistics_returns (H := Ideal.ops)
              final_one_series [0; 1] 8 36 ltac:(discriminate)
              (ideal_variance_nonzero 36 ltac:(discriminate))) as [r Hr].
  exists r. split.
  - unfold non_overlapping_template_matching.
    change (floordiv (len final_one_series) 8) with (Return (T := Z) 36).
    cbv iota beta.
    change (non_overlapping_recommendations (len final_one_series) 36 8)
      with (Return (T := list (string * bool))
              [("nblocks <= 100"%string, true);
               ("blocksize > 0.01 * n"%string,
                flt (FloatOps := Ideal.ops)
                  (fmul (decimal 1 2) (of_int 288)) (of_int 36));
               ("nblocks == n // blocksize"%string, true)]).
    cbv iota beta. rewrite Hr. f_equal.
    unfold warn_failures. rewrite !filter_cons, filter_nil. cbn [snd].
    rewrite decide_False by discriminate.
    rewrite (decide_False (P := true = false)) by discriminate.
    replace (flt _ _) with true; [by rewrite decide_False by discriminate|].
    symmetry. cbn. destruct (Rlt_dec _ _) as [|Hnlt]; [done|].
    destruct Hnlt. lra.
  - apply non_overlapping_statistics_block_matches in Hr.
    by injection Hr as <-.
Qed.

(** C3.  The template [1 1] occurs nowhere in a block of
    [final_one_series], yet the code counts one match per block: at the
    last start position the window is the single element [1], and the
    zipped comparison with the template sees one equal pair only. *)
Theorem overlapping_counts_partial_tail_window :
  template_wrapper final_one_series (Some [1; 1]) = Return [1; 1]
  ∧ rawblocks final_one_series (288 `div` 8) = replicate 8 final_one_block
  ∧ full_matches final_one_block [1; 1] = 0
  ∧ window final_one_block 35 2 = [1]
  ∧ all_equal [1] [1; 1] = true
  ∧ overlapping_matches [1; 1] 36 final_one_block = 1
  ∧ overlapping_block_matches final_one_series [1; 1] 36 = replicate 8 1.
Proof. split_and!; reflexivity. Qed.

(** ** The runs test: the candidate proportion *)

Section RunsFacts.
Context `{FloatOps} {A : Type} `{EqDecision A}.

Lemma count_zero_iff (series : list A) (v : A) :
  len (filter (λ x, x = v) series) = 0 ↔ v ∉ series.
Proof.
  unfold len. induction series as [|x series IH].
  - split; [intros _; apply not_elem_of_nil|done].
  - rewrite filter_cons, not_elem_of_cons.
    destruct (decide (x = v)) as [->|Hne]; simpl.
    + split; [lia|by intros [? _]].
    + rewrite IH. split; [by intros ?; split|by intros [_ ?]].
Qed.

Lemma count_all_iff (series : list A) (v : A) :
  len (filter (λ x, x = v) series) = len series
  ↔ ∀ x, x ∈ series → x = v.
Proof.
  unfold len. induction series as [|x series IH].
  - split; [by intros _ x ?%elem_of_nil|done].
  - rewrite filter_cons.
    pose proof (length_filter (λ x, x = v) series) as Hle.
    destruct (decide (x = v)) as [->|Hne]; simpl.
    + split.
      * intros Hlen y [->|Hy]%elem_of_cons; [done|].
        apply IH; [lia|done].
      * intros Hall. enough (Z.of_nat (length (filter (λ x, x = v) series))
                             = Z.of_nat (length series)) by lia.
        apply IH. intros y Hy. apply Hall. by right.
    + split; [lia|]. intros Hall. destruct Hne. apply Hall. by left.
Qed.

Lemma asruns_nonempty (series : list A) (v : A) :
  v ∈ series → ∃ rs, asruns series = Return rs.
Proof. destruct series; [by intros ?%elem_of_nil|]. by eexists. Qed.
End RunsFacts.

(** C4, as the code has it.  [runs] has no check of the candidate
    proportion and never raises [DegenerateProportionError].  A candidate
    that does not occur (proportion 0) is a [KeyError] of the counts.  A
    candidate that occurs has a count between 1 and n, and n only for a
    uniform sequence (proportion 1); [runs] then returns a result whose p
    is the complementary error function of the quotient, formed whatever
    the divisor [2 sqrt(2n) prop (1 - prop)] is. *)
Theorem runs_has_no_proportion_check `{FloatOps} {A : Type} `{EqDecision A}
    (series : list A) (candidate : A) :
  runs series candidate ≠ Raise DegenerateProportionError
  ∧ (candidate ∉ series → runs series candidate = Raise KeyError)
  ∧ (candidate ∈ series →
     ∃ (ncandidates : Z) (rs : list (Run.t A)),
       value_counts series candidate = Return ncandidates
       ∧ 0 < ncandidates ≤ len series
       ∧ (ncandidates = len series ↔ ∀ v, v ∈ series → v = candidate)
       ∧ asruns series = Return rs
       ∧ let n := len series in
         let nruns := len rs in
         let prop := fdiv (of_int ncandidates) (of_int n) in
         runs series candidate
         = Return (TestResult.mk _ (Int nruns)
             (ferfc
                (fdiv
                   (fabs (fsub (of_int nruns)
                               (fmul (of_int (2 * ncandidates))
                                     (fsub (of_int 1) prop))))
                   (fmul (fmul (fmul (of_int 2) (fsqrt (of_int (2 * n))))
                               prop)
                         (fsub (of_int 1) prop)))))).
Proof.
  assert (candidate ∉ series → runs series candidate = Raise KeyError)
    as Habsent.
  { intros Hnot. unfold runs, value_counts.
    by rewrite decide_True by by apply count_zero_iff. }
  assert (candidate ∈ series →
    ∃ (ncandidates : Z) (rs : list (Run.t A)),
       value_counts series candidate = Return ncandidates
       ∧ 0 < ncandidates ≤ len series
       ∧ (ncandidates = len series ↔ ∀ v, v ∈ series → v = candidate)
       ∧ asruns series = Return rs
       ∧ runs series candidate
         = Return (TestResult.mk _ (Int (len rs))
             (ferfc
                (fdiv
                   (fabs (fsub (of_int (len rs))
                               (fmul (of_int (2 * ncandidates))
                                     (fsub (of_int 1)
                                        (fdiv (of_int ncandidates)
                                              (of_int (len series)))))))
                   (fmul (fmul (fmul (of_int 2)
                                     (fsqrt (of_int (2 * len series))))
                               (fdiv (of_int ncandidates)
                                     (of_int (len series))))
                         (fsub (of_int 1)
                               (fdiv (of_int ncandidates)
                                     (of_int (len series))))))))) as Hpresent.
  { intros Hin. destruct (asruns_nonempty series candidate Hin) as [rs Hrs].
    exists (len (filter (λ x, x = candidate) series)), rs.
    assert (len (filter (λ x, x = candidate) series) ≠ 0) as Hcount
      by by rewrite count_zero_iff; intros ?.
    pose proof (length_filter (λ x, x = candidate) series) as Hle.
    unfold runs, value_counts. rewrite decide_False by done.
    split_and!; [done|unfold len in *; lia|unfold len in *; lia| |done|].
    - apply count_all_iff.
    - cbn [mbind result_bind]. by rewrite Hrs. }
  split_and!; [|done|done].
  destruct (decide (candidate ∈ series)) as [Hin|Hnot].
  - destruct (Hpresent Hin) as (? & ? & _ & _ & _ & _ & ->). discriminate.
  - rewrite (Habsent Hnot). discriminate.
Qed.

(** C4, counterexample.  On the uniform sequence [1 1 1 1] with candidate
    1 the proportion is 1 and [runs] returns a result. *)
Lemma runs_uniform_counterexample :
  value_counts [1; 1; 1; 1] 1 = Return (len [1; 1; 1; 1])
  ∧ (∃ r, runs (H := Ideal.ops) [1; 1; 1; 1] 1 = Return r)
  ∧ runs (H := Ideal.ops) [1; 1; 1; 1] 1 ≠ Raise DegenerateProportionError.
Proof. split_and!; [reflexivity|by eexists|discriminate]. Qed.

(** ** Recommendations *)

Section RecommendationFacts.
Context `{FloatOps} {A : Type} `{EqDecision A}.

Lemma warn_failures_complete (recommendations : list (string * bool))
    (name : string) :
  (name, false) ∈ recommendations →
  String.append "Input parameters fail recommendation " name
    ∈ warn_failures recommendations.
Proof.
  intros Hin. unfold warn_failures.
  apply (list_elem_of_fmap_2
           (λ rec : string * bool,
              String.append "Input parameters fail recommendation " rec.1)
           _ (name, false)).
  by apply list_elem_of_filter.
Qed.

Lemma check_recommendations_complete
    (recommendations : list (string * bool)) (name : string) :
  (name, false) ∈ recommendations →
  name ∈ check_recommendations recommendations.
Proof.
  intros Hin. unfold check_recommendations.
  apply (list_elem_of_fmap_2 fst _ (name, false)).
  by apply list_elem_of_filter.
Qed.

(** With a block size other than zero the recommendations are evaluated
    without an error, and the body goes on as if they were not there. *)
Lemma non_overlapping_template_matching_soft (series template : list A)
    (nblocks : Z) :
  len series `div` nblocks ≠ 0 →
  ∃ recommendations,
    non_overlapping_recommendations
      (len series) (len series `div` nblocks) nblocks
    = Return recommendations
    ∧ non_overlapping_template_matching series template nblocks
      = (warn_failures recommendations,
         non_overlapping_template_matching_unchecked
           series template nblocks).
Proof.
  intros Hblocksize.
  assert (nblocks ≠ 0) as Hnblocks.
  { intros ->. by rewrite Z.div_0_r in Hblocksize. }
  unfold non_overlapping_template_matching,
    non_overlapping_template_matching_unchecked,
    non_overlapping_recommendations, floordiv.
  rewrite (decide_False (P := nblocks = 0)) by done.
  rewrite (decide_False (P := len series `div` nblocks = 0)) by done.
  by eexists.
Qed.

(** With more blocks than elements the block size is zero, and
    evaluating the recommendation [nblocks == n // blocksize] raises. *)
Lemma non_overlapping_template_matching_zero_blocksize
    (series template : list A) (nblocks : Z) :
  len series < nblocks →
  non_overlapping_template_matching series template nblocks
  = ([], Raise ZeroDivisionError).
Proof.
  intros Hmore. assert (0 ≤ len series) by (unfold len; lia).
  unfold non_overlapping_template_matching,
    non_overlapping_recommendations, floordiv.
  rewrite (decide_False (P := nblocks = 0)) by lia.
  rewrite Z.div_small by lia. by rewrite decide_True.
Qed.

(** The outcome of [spectral] is that of the statistics run with no
    failure, with the failures put on the result. *)
Lemma spectral_statistics_failures (failures : list string)
    (series : list A) (heads tails : A) :
  spectral_statistics failures series heads tails
  = with_failures failures <$> spectral_statistics [] series heads tails.
Proof.
  unfold spectral_statistics.
  destruct (truncate_to_even _ _) as [series'| |]; [|done..].
  cbn [mbind result_bind].
  destruct (fft_checked _) as [fourier| |]; done.
Qed.
End RecommendationFacts.

(** C7, as the code has it.  Whenever the block size [n // nblocks] is not
    zero, the recommendations of [non_overlapping_template_matching] are
    evaluated without an error, the outcome is that of the body without
    them, and every failing one is issued as a warning; the result
    returned carries none of them.  In [spectral] the outcome is that of
    the body run as if no recommendation had failed, with the failing
    recommendation put on the result as [failures]. *)
Theorem recommendations_are_soft `{FloatOps} {A : Type} `{EqDecision A}
    (series template : list A) (nblocks : Z) (heads tails : A) :
  len series `div` nblocks ≠ 0 →
  (∃ recommendations,
     non_overlapping_recommendations
       (len series) (len series `div` nblocks) nblocks
     = Return recommendations
     ∧ non_overlapping_template_matching series template nblocks
       = (warn_failures recommendations,
          non_overlapping_template_matching_unchecked
            series template nblocks)
     ∧ (∀ name, (name, false) ∈ recommendations →
          String.append "Input parameters fail recommendation " name
            ∈ (non_overlapping_template_matching
                 series template nblocks).1)
     ∧ (∀ r, (non_overlapping_template_matching series template nblocks).2
             = Return r → recorded r = []))
  ∧ (let failures :=
       check_recommendations
         [("n ≥ 1000"%string, bool_decide (1000 ≤ len series))] in
     spectral series heads tails
     = with_failures failures <$> spectral_statistics [] series heads tails
     ∧ (∀ r, spectral series heads tails = Return r → recorded r = failures)
     ∧ (len series < 1000 → failures = ["n ≥ 1000"%string])).
Proof.
  intros Hblocksize. split.
  - destruct (non_overlapping_template_matching_soft
                series template nblocks Hblocksize) as (recs & Hrecs & Hout).
    exists recs. split_and!; [done|done| |done].
    intros name Hin. rewrite Hout. by apply warn_failures_complete.
  - cbv zeta. split_and!.
    + apply spectral_statistics_failures.
    + intros r. unfold spectral. rewrite spectral_statistics_failures.
      destruct (spectral_statistics [] _ _ _); intros [= <-]. done.
    + intros Hn. unfold check_recommendations.
      by rewrite bool_decide_eq_false_2 by lia.
Qed.

(** C7, counterexample.  With 288 elements in 17 blocks the block size is
    16 and [288 // 16] is 18: the recommendation [nblocks == n //
    blocksize] fails.  Its warning is issued, and a result is returned on
    which no failed recommendation is recorded. *)
Lemma recommendation_not_on_result_counterexample :
  len final_one_series = 288
  ∧ 17 ≠ 288 `div` (288 `div` 17)
  ∧ String.append "Input parameters fail recommendation "
      "nblocks == n // blocksize"
    ∈ (non_overlapping_template_matching (H := Ideal.ops)
         final_one_series [0; 1] 17).1
  ∧ ∃ r, (non_overlapping_template_matching (H := Ideal.ops)
            final_one_series [0; 1] 17).2 = Return r
         ∧ "nblocks == n // blocksize"%string ∉ recorded r.
Proof.
  split; [reflexivity|]. split; [discriminate|].
  destruct (non_overlapping_template_matching_soft (H := Ideal.ops)
              final_one_series [0; 1] 17 ltac:(discriminate))
    as (recs & Hrecs & ->).
  split.
  - apply warn_failures_complete.
    injection Hrecs as <-. do 2 right. left.
  - unfold non_overlapping_template_matching_unchecked. cbn [snd].
    change (floordiv (len final_one_series) 17) with (Return (T := Z) 16).
    cbn [mbind result_bind].
    destruct (non_overlapping_statistics_returns (H := Ideal.ops)
                final_one_series [0; 1] 17 16 ltac:(discriminate)
                (ideal_variance_nonzero 16 ltac:(discriminate))) as [r ->].
    exists r. split; [done|]. apply not_elem_of_nil.
Qed.

Lemma recommendations_are_soft_witness :
  len final_one_series `div` 17 ≠ 0
  ∧ ((∃ recommendations,
        non_overlapping_recommendations (H := Ideal.ops)
          (len final_one_series) (len final_one_series `div` 17) 17
        = Return recommendations
        ∧ non_overlapping_template_matching (H := Ideal.ops)
            final_one_series [0; 1] 17
          = (warn_failures recommendations,
             non_overlapping_template_matching_unchecked
               final_one_series [0; 1] 17)
        ∧ (∀ name, (name, false) ∈ recommendations →
             String.append "Input parameters fail recommendation " name
               ∈ (non_overlapping_template_matching (H := Ideal.ops)
                    final_one_series [0; 1] 17).1)
        ∧ (∀ r, (non_overlapping_template_matching (H := Ideal.ops)
                   final_one_series [0; 1] 17).2
                = Return r → recorded r = []))
     ∧ (let failures :=
          check_recommendations
            [("n ≥ 1000"%string, bool_decide (1000 ≤ len final_one_series))] in
        spectral (H := Ideal.ops) final_one_series 1 0
        = with_failures failures
            <$> spectral_statistics (H := Ideal.ops) [] final_one_series 1 0
        ∧ (∀ r, spectral (H := Ideal.ops) final_one_series 1 0 = Return r →
                recorded r = failures)
        ∧ (len final_one_series < 1000 → failures = ["n ≥ 1000"%string]))).
Proof.
  split; [discriminate|].
  apply (recommendations_are_soft (H := Ideal.ops)
           final_one_series [0; 1] 17 1 0).
  discriminate.
Defined.

(** ** The spectral test on a sequence of odd length *)

Section SpectralFacts.
Context `{FloatOps} {A : Type} `{EqDecision A}.

Lemma unique_from_spec (series : list A) :
  ∀ seen : list A,
    NoDup (unique_from seen series)
    ∧ ∀ x, x ∈ unique_from seen series ↔ x ∈ series ∧ x ∉ seen.
Proof.
  induction series as [|value series IH]; intros seen; simpl.
  - split; [constructor|]. intros x. split; [by intros ?%elem_of_nil|].
    by intros [?%elem_of_nil _].
  - destruct (decide (value ∈ seen)) as [Hseen|Hnew].
    + destruct (IH seen) as [Hnd Hin]. split; [done|].
      intros x. rewrite Hin, elem_of_cons.
      split; [tauto|]. intros [[->|?] ?]; tauto.
    + destruct (IH (value :: seen)) as [Hnd Hin]. split.
      * constructor; [|done]. rewrite Hin, not_elem_of_cons. tauto.
      * intros x. rewrite !elem_of_cons, Hin, not_elem_of_cons.
        destruct (decide (x = value)) as [->|]; tauto.
Qed.

(** A sequence with two distinct values has one that is not the
    candidate. *)
Lemma trough_exists (series : list A) (candidate : A) :
  nunique series = 2 →
  ∃ trough rest,
    filter (λ value, value ≠ candidate) (unique series) = trough :: rest
    ∧ trough ≠ candidate.
Proof.
  unfold nunique, unique, len. intros Hlen.
  destruct (unique_from_spec series []) as [Hnd _].
  destruct (unique_from [] series) as [|a [|b [|c l]]];
    simplify_eq/=; try lia.
  apply NoDup_cons in Hnd as [Hab%not_elem_of_cons _].
  rewrite !filter_cons, filter_nil.
  destruct (decide (a ≠ candidate)) as [Ha|Ha%dec_stable];
    [by eexists _, _|].
  subst a. destruct Hab as [Hab _].
  rewrite decide_True by (by intros ->). by eexists _, _.
Qed.

Lemma nunique_nonempty (series : list A) : nunique series = 2 → series ≠ [].
Proof. by intros Hn ->. Qed.

Lemma length_truncated (series : list A) :
  len series `mod` 2 ≠ 0 →
  len (slice series 0 (len series - 1)) = len series - 1.
Proof.
  intros Hodd. assert (len series ≠ 0) by (intros Hz; by rewrite Hz in Hodd).
  unfold slice, len in *. rewrite length_take, length_drop. lia.
Qed.
End SpectralFacts.

(** C10.  When [n] is odd (and the truncated sequence still has two
    distinct values) the final element is dropped and the transform is
    taken over the [n - 1] remaining elements, while the threshold
    [sqrt(log(1 / 0.05) * n)] and the expected count [0.95 * n / 2] are
    computed from the original [n]; the half spectrum keeps [n // 2]
    values, which is [(n - 1) // 2].  This holds for [spectral] and for
    [discrete_fourier_transform]. *)
Theorem spectral_odd_length_uses_original_n `{FloatOps} {A : Type}
    `{EqDecision A} (series : list A) (heads tails candidate : A) :
  len series `mod` 2 ≠ 0 →
  nunique (slice series 0 (len series - 1)) = 2 →
  let n := len series in
  let truncated := slice series 0 (n - 1) in
  let threshold :=
    fsqrt (fmul (flog (fdiv (of_int 1) (decimal 5 2))) (of_int n)) in
  let expected := fdiv (fmul (decimal 95 2) (of_int n)) (of_int 2) in
  len truncated = n - 1
  ∧ n `div` 2 = (n - 1) `div` 2
  ∧ (∃ r, spectral series heads tails = Return r
          ∧ len (oscillations_of truncated heads tails) = n - 1
          ∧ SpectralTestResult.nbelow_expect r = expected
          ∧ SpectralTestResult.nbelow r
            = count_below threshold
                (cabs <$> slice (fft (oscillations_of truncated heads tails))
                                0 (n `div` 2)))
  ∧ (∃ trough r,
        discrete_fourier_transform series candidate = Return r
        ∧ trough ≠ candidate
        ∧ len (oscillations_of truncated candidate trough) = n - 1
        ∧ DiscreteFourierTransformTestResult.nbelow_expected r = expected
        ∧ DiscreteFourierTransformTestResult.nbelow r
          = count_below threshold
              (cabs <$> slice (fft (oscillations_of truncated candidate
                                      trough))
                              0 (n `div` 2))).
Proof.
  intros Hodd Hbinary n truncated threshold expected.
  pose proof (length_truncated series Hodd) as Hlen.
  pose proof (nunique_nonempty _ Hbinary) as Hne.
  assert (∀ peak trough, len (oscillations_of truncated peak trough) = n - 1)
    as Hosc.
  { intros peak trough. unfold oscillations_of, len.
    rewrite length_fmap. exact Hlen. }
  assert (∀ peak trough,
            fft_checked (oscillations_of truncated peak trough)
            = Return (fft (oscillations_of truncated peak trough))) as Hfft.
  { intros peak trough. unfold oscillations_of. revert Hne.
    change (slice series 0 (len series - 1)) with truncated.
    generalize truncated. by intros [|]. }
  split_and!.
  - exact Hlen.
  - pose proof (Z.div_mod n 2 ltac:(lia)) as Hdiv.
    pose proof (Z.mod_pos_bound n 2 ltac:(lia)) as Hmod.
    apply (Z.div_unique (n - 1) 2 (n `div` 2) 0); [lia|].
    subst n. lia.
  - unfold spectral, spectral_statistics, truncate_to_even.
    rewrite decide_True by done. rewrite decide_False by by intros ?.
    cbn [mbind result_bind]. fold n truncated. rewrite Hfft.
    cbn [mbind result_bind]. eexists. split; [reflexivity|]. by split_and!.
  - destruct (trough_exists truncated candidate Hbinary)
      as (trough & rest & Htrough & Hneq).
    unfold discrete_fourier_transform, truncate_to_even.
    rewrite decide_True by done. rewrite decide_False by by intros ?.
    cbn [mbind result_bind]. fold n truncated. rewrite Htrough.
    cbn [mbind result_bind]. rewrite Hfft. cbn [mbind result_bind].
    exists trough. eexists. split; [reflexivity|]. by split_and!.
Qed.

Lemma spectral_odd_length_uses_original_n_witness :
  len [1; 0; 1; 0; 1] `mod` 2 ≠ 0
  ∧ nunique (slice [1; 0; 1; 0; 1] 0 (len [1; 0; 1; 0; 1] - 1)) = 2
  ∧ (let n := len [1; 0; 1; 0; 1] in
     let truncated := slice [1; 0; 1; 0; 1] 0 (n - 1) in
     let threshold :=
       fsqrt (FloatOps := Ideal.ops)
         (fmul (flog (fdiv (of_int 1) (decimal 5 2))) (of_int n)) in
     let expected :=
       fdiv (FloatOps := Ideal.ops)
         (fmul (decimal 95 2) (of_int n)) (of_int 2) in
     len truncated = n - 1
     ∧ n `div` 2 = (n - 1) `div` 2
     ∧ (∃ r, spectral [1; 0; 1; 0; 1] 1 0 = Return r
             ∧ len (oscillations_of (H := Ideal.ops) truncated 1 0) = n - 1
             ∧ SpectralTestResult.nbelow_expect r = expected
             ∧ SpectralTestResult.nbelow r
               = count_below threshold
                   (cabs <$> slice (fft (oscillations_of truncated 1 0))
                                   0 (n `div` 2)))
     ∧ (∃ trough r,
           discrete_fourier_transform [1; 0; 1; 0; 1] 1 = Return r
           ∧ trough ≠ 1
           ∧ len (oscillations_of (H := Ideal.ops) truncated 1 trough) = n - 1
           ∧ DiscreteFourierTransformTestResult.nbelow_expected r = expected
           ∧ DiscreteFourierTransformTestResult.nbelow r
             = count_below threshold
                 (cabs <$> slice (fft (oscillations_of truncated 1 trough))
                                 0 (n `div` 2)))).
Proof.
  split; [discriminate|]. split; [reflexivity|].
  apply (spectral_odd_length_uses_original_n (H := Ideal.ops)
           [1; 0; 1; 0; 1] 1 0 1); [discriminate|reflexivity].
Defined.


(** * Further properties of the code *)

(** ** Counting runs *)

Section RunCountFacts.
Context {A : Type} `{EqDecision A}.






End RunCountFacts.





(** ** The longest run of the candidate in a block *)

Section LongestRunFacts.
Context {A : Type} `{EqDecision A}.

Lemma asruns_decomposition (series : list A) :
  series ≠ [] →
  ∃ rs, asruns series = Return rs
        ∧ Forall (λ r, 1 ≤ Run.length r) rs
        ∧ adjacent_differ rs
        ∧ concat (stretch <$> rs) = series.
Proof.
  destruct series as [|first_value items]; [done|]; intros _.
  eexists; split; [reflexivity|].
  cbn [asruns_loop Run.value Run.length]. rewrite decide_True by done.
  destruct (asruns_loop_spec items first_value (0 + 1) ltac:(lia))
    as (Hlen & Hadj & _ & Hcat & _).
  by split_and!.
Qed.

Lemma adjacent_differ_tail (r : Run.t A) (rs : list (Run.t A)) :
  adjacent_differ (r :: rs) → adjacent_differ rs.
Proof. intros Hadj i r1 r2 H1 H2. by apply (Hadj (S i)). Qed.

Lemma adjacent_differ_head (r r' : Run.t A) (rs : list (Run.t A)) :
  Run.value r' = Run.value r →
  adjacent_differ (r :: rs) → adjacent_differ (r' :: rs).
Proof.
  intros Hv Hadj [|i] r1 r2 H1 H2.
  - simplify_eq/=. rewrite Hv. by apply (Hadj 0%nat).
  - by apply (Hadj (S i)).
Qed.

(** A stretch of [m >= 1] equal values inside the sequence lies inside
    one run. *)
Lemma stretch_inside_a_run (k : list A) :
  ∀ (rs : list (Run.t A)) (m : nat) (c : A) (k' : list A),
    Forall (λ r, 1 ≤ Run.length r) rs →
    adjacent_differ rs →
    (1 ≤ m)%nat →
    k ++ replicate m c ++ k' = concat (stretch <$> rs) →
    ∃ r, r ∈ rs ∧ Run.value r = c ∧ Z.of_nat m ≤ Run.length r.
Proof.
  induction k as [|x k IH]; intros rs m c k' Hlen Hadj Hm Heq.
  - destruct rs as [|r rs]; [destruct m; [lia|done]|].
    apply Forall_cons in Hlen as [Hr Hlen].
    rewrite fmap_cons in Heq. cbn [concat app] in Heq.
    unfold stretch at 1 in Heq.
    destruct (Z.to_nat (Run.length r)) as [|n] eqn:Hn; [lia|].
    destruct m as [|m]; [lia|]. cbn [replicate app] in Heq.
    injection Heq as Hc Heq. subst c.
    exists r. split; [by left|]. split; [done|].
    destruct (decide (S m ≤ S n)%nat) as [|Hgt]; [lia|]. exfalso.
    assert (m = n + S (m - S n))%nat as Hsplit by lia.
    rewrite Hsplit, replicate_add, <- app_assoc in Heq.
    apply app_inv_head in Heq. cbn [replicate app] in Heq.
    destruct rs as [|r' rs]; [done|].
    apply Forall_cons in Hlen as [Hr' _].
    rewrite fmap_cons in Heq. cbn [concat] in Heq. unfold stretch at 1 in Heq.
    destruct (Z.to_nat (Run.length r')) as [|n'] eqn:Hn'; [lia|].
    cbn [replicate app] in Heq. injection Heq as Hv _.
    by apply (Hadj 0%nat r r').
  - destruct rs as [|r rs]; [done|].
    pose proof Hlen as Hlen'. apply Forall_cons in Hlen' as [Hr Hrs].
    rewrite fmap_cons in Heq. cbn [concat app] in Heq.
    unfold stretch at 1 in Heq.
    destruct (Z.to_nat (Run.length r)) as [|n] eqn:Hn; [lia|].
    cbn [replicate app] in Heq. injection Heq as Hx Heq.
    destruct n as [|n].
    + destruct (IH rs m c k' Hrs (adjacent_differ_tail _ _ Hadj) Hm Heq)
        as (r2 & Hin & Hv & Hle).
      exists r2. split; [by right|done].
    + destruct (IH (Run.mk (Run.value r) (Run.length r - 1) :: rs) m c k')
        as (r2 & Hin & Hv & Hle); [| |done| |].
      * constructor; [simpl; lia|done].
      * by apply (adjacent_differ_head r).
      * rewrite fmap_cons. cbn [concat]. unfold stretch at 1.
        cbn [Run.value Run.length].
        by replace (Z.to_nat (Run.length r - 1)) with (S n) by lia.
      * apply elem_of_cons in Hin as [->|Hin].
        -- exists r. split; [by left|]. simpl in *. split; [done|lia].
        -- exists r2. split; [by right|done].
Qed.

Lemma stretch_of_a_run (rs : list (Run.t A)) (r : Run.t A) :
  r ∈ rs → occurs_in (stretch r) (concat (stretch <$> rs)).
Proof.
  intros (a & b & ->)%list_elem_of_split.
  rewrite fmap_app, fmap_cons, concat_app. cbn [concat].
  by eexists _, _.
Qed.

(** [maxlen] after the loop is the greatest of the start value and the
    lengths seen. *)
Lemma maxlen_fold (runs : list (Run.t A)) :
  ∀ start : Z,
    let maxlen :=
      foldl (λ maxlen run,
               if decide (Run.length run > maxlen)
               then Run.length run else maxlen) start runs in
    start ≤ maxlen
    ∧ (∀ r, r ∈ runs → Run.length r ≤ maxlen)
    ∧ (maxlen = start ∨ ∃ r, r ∈ runs ∧ maxlen = Run.length r).
Proof.
  induction runs as [|r runs IH]; intros start; cbn [foldl].
  - split_and!; [lia| |by left]. by intros r ?%elem_of_nil.
  - cbv zeta in IH.
    destruct (decide (Run.length r > start)) as [Hgt|Hle];
      [destruct (IH (Run.length r)) as (H1 & H2 & H3)
      |destruct (IH start) as (H1 & H2 & H3)];
      (split_and!; [lia| |]).
    + intros r' [->|Hin]%elem_of_cons; [lia|by apply H2].
    + right. destruct H3 as [->|(r' & Hin & ->)].
      * exists r. split; [by left|done].
      * exists r'. split; [by right|done].
    + intros r' [->|Hin]%elem_of_cons; [lia|by apply H2].
    + destruct H3 as [->|(r' & Hin & ->)]; [by left|].
      right. exists r'. split; [by right|done].
Qed.
End LongestRunFacts.

Lemma longest_candidate_run_spec {A : Type} `{EqDecision A}
    (candidate : A) (chunk : list A) :
  chunk ≠ [] →
  ∃ maxlen,
    longest_candidate_run candidate chunk = Return maxlen
    ∧ 0 ≤ maxlen ≤ len chunk
    ∧ occurs_in (replicate (Z.to_nat maxlen) candidate) chunk
    ∧ ¬ occurs_in (replicate (S (Z.to_nat maxlen)) candidate) chunk.
Proof.
  intros Hne.
  destruct (asruns_decomposition chunk Hne) as (rs & Hrs & Hlen & Hadj & Hcat).
  unfold longest_candidate_run. rewrite Hrs. cbn [mbind result_bind].
  eexists. split; [reflexivity|].
  destruct (maxlen_fold (filter (λ run, Run.value run = candidate) rs) 0)
    as (Hpos & Hmax & Hwhich).
  set (maxlen := foldl _ 0 _) in *.
  assert (occurs_in (replicate (Z.to_nat maxlen) candidate) chunk) as Hinfix.
  { destruct Hwhich as [->|(r & [Hv Hin]%list_elem_of_filter & Hr)].
    - by exists [], chunk.
    - rewrite <- Hcat. rewrite Hr, <- Hv. by apply stretch_of_a_run. }
  split_and!; [done| |done|].
  - destruct Hinfix as (k & k' & ->). unfold len.
    rewrite !length_app, length_replicate. lia.
  - intros (k & k' & Heq). rewrite <- Hcat in Heq. symmetry in Heq.
    destruct (stretch_inside_a_run k rs (S (Z.to_nat maxlen)) candidate k'
                Hlen Hadj ltac:(lia) Heq) as (r & Hin & Hv & Hle).
    assert (Run.length r ≤ maxlen) by (apply Hmax; by apply list_elem_of_filter).
    lia.
Qed.


(** X3.  For a non-empty block, [longest_candidate_run] is the length of
    the longest stretch of consecutive candidates in the block: a stretch
    of that length occurs in the block and no longer one does (so it is 0
    exactly when the candidate does not occur). *)
Theorem longest_candidate_run_is_longest_stretch {A : Type} `{EqDecision A}
    (candidate : A) (chunk : list A) :
  chunk ≠ [] →
  ∃ maxlen,
    longest_candidate_run candidate chunk = Return maxlen
    ∧ 0 ≤ maxlen ≤ len chunk
    ∧ occurs_in (replicate (Z.to_nat maxlen) candidate) chunk
    ∧ ¬ occurs_in (replicate (S (Z.to_nat maxlen)) candidate) chunk.
Proof. apply longest_candidate_run_spec. Qed.

Lemma longest_candidate_run_is_longest_stretch_witness :
  [1; 1; 0; 1] ≠ []
  ∧ ∃ maxlen,
      longest_candidate_run 1 [1; 1; 0; 1] = Return maxlen
      ∧ 0 ≤ maxlen ≤ len [1; 1; 0; 1]
      ∧ occurs_in (replicate (Z.to_nat maxlen) 1) [1; 1; 0; 1]
      ∧ ¬ occurs_in (replicate (S (Z.to_nat maxlen)) 1) [1; 1; 0; 1].
Proof.
  split; [discriminate|].
  apply (longest_candidate_run_is_longest_stretch 1 [1; 1; 0; 1]).
  discriminate.
Defined.

(** ** The outcome of [longest_runs] *)

Section LongestRunsOutcome.
Context `{FloatOps} {A : Type} `{EqDecision A}.

Lemma blocks_length (series : list A) (blocksize : Z) :
  0 < blocksize →
  Forall (λ block, len block = blocksize) (blocks series blocksize).
Proof.
  intros Hb. unfold blocks. apply Forall_fmap, Forall_forall.
  intros i Hi%elem_of_seqZ. simpl.
  assert (0 ≤ len series) by (unfold len; lia).
  assert ((i + 1) * blocksize ≤ len series).
  { etrans; [|apply (Z.mul_div_le (len series) blocksize); lia]. nia. }
  rewrite length_slice by nia. lia.
Qed.

Lemma mapM_Return_Forall2 {X Y : Type} (f : X → result Y) (P : X → Y → Prop)
    (xs : list X) :
  (∀ x, x ∈ xs → ∃ y, f x = Return y ∧ P x y) →
  ∃ ys, mapM f xs = Return ys ∧ Forall2 P xs ys.
Proof.
  induction xs as [|x xs IH]; intros Hf.
  - exists []. by split.
  - destruct (Hf x ltac:(by left)) as (y & Hy & HP).
    destruct IH as (ys & Hys & HPs); [intros z Hz; apply Hf; by right|].
    exists (y :: ys). split; [|by constructor].
    cbn. rewrite Hy. cbn. by rewrite Hys.
Qed.

Lemma occurs_in_shorter (m m' : nat) (c : A) (series : list A) :
  (m ≤ m')%nat →
  occurs_in (replicate m' c) series → occurs_in (replicate m c) series.
Proof.
  intros Hle (before & after & ->).
  replace m' with (m + (m' - m))%nat by lia.
  rewrite replicate_add, <- app_assoc. by eexists _, _.
Qed.

Lemma increment_item_in_range (xs : list Z) (i : Z) :
  0 ≤ i < len xs →
  ∃ xs', increment_item xs (Some i) = Return xs' ∧ len xs' = len xs.
Proof.
  intros Hi. unfold increment_item, list_index. cbv zeta.
  rewrite (decide_False (P := i < 0)) by lia. rewrite decide_True by done.
  cbn [mbind result_bind].
  destruct (lookup_lt_is_Some_2 xs (Z.to_nat i)) as [x Hx];
    [unfold len in Hi; lia|].
  rewrite Hx. eexists. split; [done|]. unfold len. by rewrite length_insert.
Qed.

(** The tallying loop goes through when every length is below the highest
    boundary, and stops with [IndexError] at the first that is not. *)
Lemma tally_outcome (n blocksize nblocks : Z) (freqbinranges : list Z)
    (lowest : Z) (maxlengths : list Z) :
  longest_runs_constants n = Return (blocksize, nblocks, freqbinranges) →
  head freqbinranges = Some lowest →
  ∀ freqbins : list Z,
    len freqbins = len freqbinranges →
    (Forall (λ maxlen, maxlen < lowest + len freqbinranges - 1) maxlengths →
     ∃ freqbins', tally freqbinranges freqbins maxlengths = Return freqbins')
    ∧ (Exists (λ maxlen, lowest + len freqbinranges - 1 ≤ maxlen) maxlengths →
       tally freqbinranges freqbins maxlengths = Raise IndexError).
Proof.
  intros Hc Hlo.
  induction maxlengths as [|maxlen maxlengths IH]; intros freqbins Hbins.
  - split; [by eexists|]. by intros ?%Exists_nil.
  - cbn [tally].
    destruct (decide (maxlen < lowest + len freqbinranges - 1)) as [Hlt|Hge].
    + destruct (freqbin_below_highest n blocksize nblocks freqbinranges
                  lowest maxlen Hc Hlo Hlt) as [-> Hidx].
      cbn [mbind result_bind].
      destruct (increment_item_in_range freqbins
                  (Z.max 0 (maxlen - lowest)) ltac:(lia)) as (fb & -> & Hfb).
      cbn [mbind result_bind].
      destruct (IH fb ltac:(lia)) as [IHall IHex]. split.
      * intros [_ Hall]%Forall_cons. by apply IHall.
      * intros [?|Hex]%Exists_cons; [lia|by apply IHex].
    + destruct (freqbin_from_highest n blocksize nblocks freqbinranges
                  lowest maxlen Hc Hlo ltac:(lia)) as [-> Hinc].
      cbn [mbind result_bind]. rewrite (Hinc freqbins Hbins). split.
      * intros [? _]%Forall_cons. lia.
      * done.
Qed.

Lemma longest_runs_constants_shape (n : Z) :
  128 ≤ n →
  ∃ blocksize nblocks freqbinranges lowest,
    longest_runs_constants n = Return (blocksize, nblocks, freqbinranges)
    ∧ head freqbinranges = Some lowest
    ∧ last freqbinranges = Some (lowest + len freqbinranges - 1)
    ∧ 0 < lowest
    ∧ 0 < blocksize
    ∧ ∃ maxlenprobabilities,
        probabilities blocksize = Return maxlenprobabilities.
Proof.
  intros Hn. unfold longest_runs_constants.
  rewrite decide_False by lia.
  repeat case_decide;
    eexists _, _, _, _; (split; [reflexivity|]);
    (split; [reflexivity|]); (split; [reflexivity|]);
    (split; [lia|]); (split; [lia|]); by eexists.
Qed.
End LongestRunsOutcome.

(** X4.  For a sequence of at least 128 elements, [longest_runs] raises
    [IndexError] when some block contains as many consecutive candidates
    as the highest boundary of the regime (4, 9 or 16), and returns a
    result when no block does; it raises nothing else. *)
Theorem longest_runs_outcome `{FloatOps} {A : Type} `{EqDecision A}
    (series : list A) (candidate : A) :
  128 ≤ len series →
  ∃ blocksize nblocks freqbinranges highest,
    longest_runs_constants (len series)
    = Return (blocksize, nblocks, freqbinranges)
    ∧ last freqbinranges = Some highest
    ∧ (Exists (λ block,
                 occurs_in (replicate (Z.to_nat highest) candidate) block)
              (chunks series blocksize) →
       longest_runs series candidate = Raise IndexError)
    ∧ (Forall (λ block,
                 ¬ occurs_in (replicate (Z.to_nat highest) candidate) block)
              (chunks series blocksize) →
       ∃ r, longest_runs series candidate = Return r).
Proof.
  intros Hn.
  destruct (longest_runs_constants_shape (len series) Hn)
    as (blocksize & nblocks & bins & lowest & Hc & Hlo & Hhi & Hlowest
        & Hblocksize & probs & Hprobs).
  exists blocksize, nblocks, bins, (lowest + len bins - 1).
  split; [done|]. split; [done|].
  set (highest := lowest + len bins - 1).
  assert (0 ≤ len bins) by (unfold len; lia).
  assert (1 ≤ len bins).
  { destruct bins; [done|]. unfold len; simpl; lia. }
  destruct (mapM_Return_Forall2 (longest_candidate_run candidate)
              (λ block maxlen,
                 highest ≤ maxlen
                 ↔ occurs_in (replicate (Z.to_nat highest) candidate) block)
              (chunks series blocksize)) as (maxlengths & Hmap & Hrel).
  { intros block Hblock.
    pose proof (blocks_length series blocksize Hblocksize) as Hlens.
    rewrite Forall_forall in Hlens. specialize (Hlens block Hblock).
    assert (block ≠ []) as Hne by (intros ->; unfold len in Hlens; simpl in *; lia).
    destruct (longest_candidate_run_spec candidate block Hne)
      as (maxlen & Hrun & Hbound & Hocc & Hnot).
    exists maxlen. split; [done|]. split.
    - intros Hle. apply (occurs_in_shorter _ (Z.to_nat maxlen)); [lia|done].
    - intros Hhighest.
      destruct (decide (highest ≤ maxlen)) as [|Hlt]; [done|].
      destruct Hnot.
      apply (occurs_in_shorter _ (Z.to_nat highest)); [lia|done]. }
  destruct (tally_outcome _ _ _ _ _ maxlengths Hc Hlo ((λ _ : Z, 0) <$> bins))
    as [Hall Hex].
  { unfold len. by rewrite length_fmap. }
  unfold longest_runs. rewrite Hc. cbn [mbind result_bind].
  rewrite Hprobs. cbn [mbind result_bind].
  rewrite Hmap. cbn [mbind result_bind]. split.
  - intros Hblocks. rewrite Hex; [done|].
    clear -Hrel Hblocks. induction Hrel as [|block maxlen blocks ms Hbm _ IH].
    + by apply Exists_nil in Hblocks.
    + apply Exists_cons in Hblocks as [Hb|Hbs].
      * left. by apply Hbm.
      * right. by apply IH.
  - intros Hblocks. destruct Hall as [freqbins ->]; [|by eexists].
    clear -Hrel Hblocks. induction Hrel as [|block maxlen blocks ms Hbm _ IH].
    + constructor.
    + apply Forall_cons in Hblocks as [Hb Hbs]. constructor; [|by apply IH].
      destruct (decide (maxlen < highest)) as [|Hge]; [done|].
      destruct Hb. apply Hbm. lia.
Qed.

Lemma longest_runs_outcome_witness :
  128 ≤ len four_ones_per_block
  ∧ ∃ blocksize nblocks freqbinranges highest,
      longest_runs_constants (len four_ones_per_block)
      = Return (blocksize, nblocks, freqbinranges)
      ∧ last freqbinranges = Some highest
      ∧ (Exists (λ block,
                   occurs_in (replicate (Z.to_nat highest) 1) block)
                (chunks four_ones_per_block blocksize) →
         longest_runs (H := Ideal.ops) four_ones_per_block 1
         = Raise IndexError)
      ∧ (Forall (λ block,
                   ¬ occurs_in (replicate (Z.to_nat highest) 1) block)
                (chunks four_ones_per_block blocksize) →
         ∃ r, longest_runs (H := Ideal.ops) four_ones_per_block 1 = Return r).
Proof.
  split; [discriminate|].
  apply (longest_runs_outcome (H := Ideal.ops) four_ones_per_block 1).
  discriminate.
Defined.

(** ** The template handed to the template matching tests *)

(** X5.  The template the [template] decorator hands to the test always
    draws its values from the series.  Without a template it is the first
    value of the series repeated [min(floor(sqrt(n)), 9)] times, and
    nothing is raised; a given template is passed on unchanged, and
    [TemplateContainsElementsNotInSequenceError] is raised exactly when
    one of its values does not occur in the series. *)
Theorem template_wrapper_values {A : Type} `{EqDecision A}
    (series : list A) (template : option (list A)) :
  match template_wrapper series template with
  | Return t =>
      Forall (λ value, value ∈ series) t
      ∧ match template with
        | Some given => t = given
        | None =>
            len t = Z.min (Z.sqrt (len series)) 9
            ∧ Forall (λ value, head series = Some value) t
        end
  | Raise e =>
      e = TemplateContainsElementsNotInSequenceError
      ∧ ∃ given value,
          template = Some given ∧ value ∈ given ∧ value ∉ series
  | Diverges => False
  end.
Proof.
  destruct template as [given|]; cbn [template_wrapper].
  - case_decide as Hall; [done|]. split; [done|].
    apply not_Forall_Exists in Hall; [|apply _].
    apply Exists_exists in Hall as (value & Hin & Hnot).
    by exists given, value.
  - cbv zeta. set (template_size := Z.min (Z.sqrt (len series)) 9).
    assert (0 ≤ template_size).
    { pose proof (Z.sqrt_nonneg (len series)). lia. }
    destruct series as [|first_value series].
    + change template_size with 0. cbn. by split_and!.
    + assert (1 ≤ template_size).
      { assert (1 ≤ Z.sqrt (len (first_value :: series)));
          [|unfold template_size; lia].
        apply Z.sqrt_le_square; unfold len; simpl; lia. }
      destruct (Z.to_nat template_size) as [|size] eqn:Hsize; [lia|].
      rewrite <- Hsize. split_and!.
      * apply Forall_replicate. by left.
      * unfold len. rewrite length_replicate. lia.
      * by apply Forall_replicate.
Qed.

(** ** The matches counted in a block *)

Section MatchCountFacts.
Context {A : Type} `{EqDecision A}.

Lemma greedy_matches_bounds (fuel : nat) (block template : list A) :
  template ≠ [] →
  ∀ pointer : Z,
    0 ≤ greedy_matches fuel block template pointer
    ∧ greedy_matches fuel block template pointer * len template
      ≤ Z.max 0 (len block - pointer).
Proof.
  intros Hne. assert (1 ≤ len template) as Hk.
  { destruct template; [done|]. unfold len; simpl; lia. }
  induction fuel as [|fuel IH]; intros pointer; cbn [greedy_matches];
    [lia|].
  case_decide; [|lia]. case_decide.
  - destruct (IH (pointer + len template)). nia.
  - destruct (IH (pointer + 1)). nia.
Qed.

Lemma length_removelast (xs : list A) :
  len (removelast xs) = Z.max 0 (len xs - 1).
Proof.
  unfold len. destruct xs as [|x0 xs']; [done|].
  assert (x0 :: xs' ≠ []) as Hne by done.
  revert Hne. generalize (x0 :: xs'). intros xs Hne.
  rewrite (app_removelast_last x0 Hne) at 2.
  rewrite length_app; simpl; lia.
Qed.

(** The first block of a sequence cut into at least one block. *)
Lemma blocks_first (series : list A) (blocksize : Z) :
  0 < blocksize → blocksize ≤ len series →
  ∃ block rest,
    blocks series blocksize = block :: rest ∧ len block = blocksize.
Proof.
  intros Hb Hn. pose proof (blocks_length series blocksize Hb) as Hlens.
  unfold blocks in *.
  assert (1 ≤ len series `div` blocksize) as Hq
    by (apply Z.div_le_lower_bound; lia).
  destruct (seqZ 0 (len series `div` blocksize)) as [|i others] eqn:Hseq.
  - apply (f_equal length) in Hseq. rewrite length_seqZ in Hseq.
    simpl in Hseq. lia.
  - rewrite fmap_cons in *. apply Forall_cons in Hlens as [Hlen _].
    by eexists _, _.
Qed.
End MatchCountFacts.

(** X6.  With a non-empty template the scan of a block terminates, and
    the matches it counts do not overlap and leave out the final element
    of the block: their number times the template length is at most the
    block length less one. *)
Theorem non_overlapping_matches_bound {A : Type} `{EqDecision A}
    (template_tup block_tup : list A) :
  template_tup ≠ [] →
  ∃ matches,
    non_overlapping_matches template_tup block_tup = Return matches
    ∧ 0 ≤ matches
    ∧ matches * len template_tup ≤ Z.max 0 (len block_tup - 1).
Proof.
  intros Hne. rewrite non_overlapping_matches_greedy by done.
  eexists. split; [reflexivity|].
  destruct (greedy_matches_bounds (length block_tup)
              (removelast block_tup) template_tup Hne 0) as [Hpos Hle].
  rewrite length_removelast in Hle. split; [done|lia].
Qed.

Lemma non_overlapping_matches_bound_witness :
  [0; 1] ≠ []
  ∧ ∃ matches,
      non_overlapping_matches [0; 1] final_one_block = Return matches
      ∧ 0 ≤ matches
      ∧ matches * len [0; 1] ≤ Z.max 0 (len final_one_block - 1).
Proof.
  split; [discriminate|].
  apply (non_overlapping_matches_bound [0; 1] final_one_block). discriminate.
Defined.

(** X7.  With an empty template [non_overlapping_template_matching]
    never returns: whenever the sequence holds at least one block
    ([1 <= nblocks <= n]), the pointer of the first block's scan never
    moves and the loop does not exit. *)
Theorem non_overlapping_empty_template_hangs `{FloatOps} {A : Type}
    `{EqDecision A} (series : list A) (nblocks : Z) :
  0 < nblocks → nblocks ≤ len series →
  (non_overlapping_template_matching series [] nblocks).2 = Diverges.
Proof.
  intros Hpos Hle.
  assert (1 ≤ len series `div` nblocks) as Hblocksize
    by (apply Z.div_le_lower_bound; lia).
  destruct (non_overlapping_template_matching_soft series [] nblocks
              ltac:(lia)) as (recs & _ & ->).
  cbn [snd]. unfold non_overlapping_template_matching_unchecked, floordiv.
  rewrite decide_False by lia. cbn [mbind result_bind].
  unfold non_overlapping_statistics, non_overlapping_block_matches, rawblocks.
  destruct (blocks_first series (len series `div` nblocks)) as
    (block & rest & -> & Hlen); [lia| |].
  { apply Z.div_le_upper_bound; [lia|]. nia. }
  cbn [mapM]. rewrite non_overlapping_matches_empty_template; [done|].
  intros ->. change (len []) with 0 in Hlen. lia.
Qed.

Lemma non_overlapping_empty_template_hangs_witness :
  0 < 8 ∧ 8 ≤ len final_one_series
  ∧ (non_overlapping_template_matching (H := Ideal.ops)
       final_one_series [] 8).2 = Diverges.
Proof.
  split; [reflexivity|]. split; [discriminate|].
  apply (non_overlapping_empty_template_hangs (H := Ideal.ops)
           final_one_series 8); [reflexivity|discriminate].
Defined.

(** ** The outcome of [overlapping_template_matching] *)

Section OverlappingOutcome.
Context `{FloatOps} {A : Type} `{EqDecision A}.

(** The tallying loop never leaves the six tallies: [min(matches, 5)] is
    one of their indices. *)
Lemma tally_matches_returns (block_matches : list Z) :
  Forall (λ matches, 0 ≤ matches) block_matches →
  ∀ tallies : list Z,
    len tallies = 6 →
    ∃ tallies', tally_matches tallies block_matches = Return tallies'
                ∧ len tallies' = 6.
Proof.
  induction block_matches as [|matches block_matches IH];
    intros Hpos tallies Htallies; [by eexists|].
  apply Forall_cons in Hpos as [Hm Hpos]. cbn [tally_matches]. cbv zeta.
  destruct (increment_item_in_range tallies (Z.min matches 5) ltac:(lia))
    as (tallies' & -> & Hlen).
  cbn [mbind result_bind]. apply IH; [done|lia].
Qed.

Lemma overlapping_block_matches_nonnegative (series template : list A)
    (blocksize : Z) :
  Forall (λ matches, 0 ≤ matches)
         (overlapping_block_matches series template blocksize).
Proof.
  unfold overlapping_block_matches. apply Forall_fmap, Forall_true.
  intros block. unfold overlapping_matches, len. simpl. lia.
Qed.
End OverlappingOutcome.

(** X8.  [overlapping_template_matching] raises [ZeroDivisionError] for
    [nblocks = 0], and for [1 <= nblocks <= n] it returns a result
    whatever the template is, be it empty or longer than a block. *)
Theorem overlapping_template_matching_outcome `{FloatOps} {A : Type}
    `{EqDecision A} (series template : list A) (nblocks : Z) :
  overlapping_template_matching series template 0 = Raise ZeroDivisionError
  ∧ (0 < nblocks ≤ len series →
     ∃ r, overlapping_template_matching series template nblocks = Return r).
Proof.
  split; [done|]. intros Hn.
  unfold overlapping_template_matching, floordiv.
  rewrite decide_False by lia. cbn [mbind result_bind].
  destruct (tally_matches_returns
              (overlapping_block_matches series template
                 (len series `div` nblocks))
              (overlapping_block_matches_nonnegative _ _ _)
              (replicate 6 0) eq_refl) as (tallies & -> & _).
  cbn [mbind result_bind]. by eexists.
Qed.

(** ** Block sizes and recommendations *)

(** X9.  [non_overlapping_template_matching] raises [ZeroDivisionError]
    and issues no warning both for [nblocks = 0] and for more blocks than
    elements, where the block size is 0 and the recommendation
    [nblocks == n // blocksize] cannot be evaluated. *)
Theorem non_overlapping_zero_division `{FloatOps} {A : Type} `{EqDecision A}
    (series template : list A) (nblocks : Z) :
  non_overlapping_template_matching series template 0
  = ([], Raise ZeroDivisionError)
  ∧ (len series < nblocks →
     non_overlapping_template_matching series template nblocks
     = ([], Raise ZeroDivisionError)).
Proof.
  split; [done|]. apply non_overlapping_template_matching_zero_blocksize.
Qed.

(** ** The spectral tests: outcomes and the signal *)

Section SpectralOutcomeFacts.
Context `{FloatOps} {A : Type} `{EqDecision A}.

Lemma filter_none {X : Type} (P : X → Prop) `{∀ x, Decision (P x)}
    (xs : list X) :
  (∀ x, x ∈ xs → ¬ P x) → filter P xs = [].
Proof.
  induction xs as [|x xs IH]; intros Hnone; [done|].
  rewrite filter_cons, decide_False by (apply Hnone; by left).
  apply IH. intros y Hy. apply Hnone. by right.
Qed.

Lemma elem_of_unique (series : list A) (x : A) :
  x ∈ unique series ↔ x ∈ series.
Proof.
  unfold unique. destruct (unique_from_spec series []) as [_ Hin].
  rewrite Hin. split; [tauto|]. intros ?. split; [done|apply not_elem_of_nil].
Qed.

(** In a sequence with two distinct values, one of them the candidate,
    the trough is the other value and every element is one of the two. *)
Lemma binary_trough (series : list A) (candidate : A) :
  nunique series = 2 → candidate ∈ series →
  ∃ trough rest,
    filter (λ value, value ≠ candidate) (unique series) = trough :: rest
    ∧ trough ≠ candidate
    ∧ ∀ value, value ∈ series → value = candidate ∨ value = trough.
Proof.
  intros Hn Hc. pose proof (elem_of_unique series) as Hin.
  apply Hin in Hc. unfold nunique, len in Hn.
  destruct (unique_from_spec series []) as [Hnd _]. fold (unique series) in Hnd.
  destruct (unique series) as [|a [|b [|c l]]]; simplify_eq/=; try lia.
  apply NoDup_cons in Hnd as [Hab%not_elem_of_cons _]. destruct Hab as [Hab _].
  rewrite !filter_cons, filter_nil.
  apply elem_of_cons in Hc as [->|Hc].
  - rewrite decide_False by (by intros ?).
    rewrite decide_True by (by intros ->).
    exists b, []. split_and!; [done|by intros ->|].
    intros value Hv%Hin. apply elem_of_cons in Hv as [->|Hv]; [by left|].
    apply elem_of_cons in Hv as [->|Hv%elem_of_nil]; [by right|done].
  - apply elem_of_cons in Hc as [->|Hc%elem_of_nil]; [|done].
    rewrite decide_True by done. exists a. eexists.
    split_and!; [done|done|].
    intros value Hv%Hin. apply elem_of_cons in Hv as [->|Hv]; [by right|].
    apply elem_of_cons in Hv as [->|Hv%elem_of_nil]; [by left|done].
Qed.
End SpectralOutcomeFacts.


(** X11.  When the sequence that reaches the transform has two distinct
    values and the candidate is one of them,
    [discrete_fourier_transform] returns a result computed from the
    signal in which the candidate is +1 and the other value is -1: no
    element is mapped to NaN. *)
Theorem discrete_fourier_transform_signal `{FloatOps} {A : Type}
    `{EqDecision A} (series transformed : list A) (candidate : A) :
  truncate_to_even (len series) series = Return transformed →
  nunique transformed = 2 →
  candidate ∈ transformed →
  ∃ r, discrete_fourier_transform series candidate = Return r
       ∧ DiscreteFourierTransformTestResult.nbelow r
         = count_below (threshold_of (len series))
             (cabs <$> slice
                (fft ((λ value, if decide (value = candidate)
                                then of_int 1 else of_int (-1))
                        <$> transformed))
                0 (len series `div` 2)).
Proof.
  intros Htr Hbin Hc.
  destruct (binary_trough transformed candidate Hbin Hc)
    as (trough & rest & Htrough & Hne & Hvalues).
  assert (oscillations_of transformed candidate trough
          = (λ value, if decide (value = candidate)
                      then of_int 1 else of_int (-1)) <$> transformed)
    as Hosc.
  { unfold oscillations_of. apply list_fmap_ext. intros i value Hi.
    apply list_elem_of_lookup_2 in Hi.
    destruct (Hvalues value Hi) as [->| ->].
    - rewrite decide_False by (by intros ?). by rewrite !decide_True.
    - rewrite decide_True by done. by rewrite decide_False. }
  unfold discrete_fourier_transform. rewrite Htr. cbn [mbind result_bind].
  rewrite Htrough. cbn [mbind result_bind]. rewrite Hosc.
  pose proof (nunique_nonempty _ Hbin) as Hnonempty.
  destruct transformed as [|value others]; [done|].
  cbn. eexists. split; reflexivity.
Qed.

Lemma discrete_fourier_transform_signal_witness :
  truncate_to_even (len [1; 0; 1; 0; 1]) [1; 0; 1; 0; 1] = Return [1; 0; 1; 0]
  ∧ nunique [1; 0; 1; 0] = 2
  ∧ 1 ∈ [1; 0; 1; 0]
  ∧ ∃ r, discrete_fourier_transform (H := Ideal.ops) [1; 0; 1; 0; 1] 1
         = Return r
         ∧ DiscreteFourierTransformTestResult.nbelow r
           = count_below (H := Ideal.ops)
               (threshold_of (len [1; 0; 1; 0; 1]))
               (cabs <$> slice
                  (fft ((λ value, if decide (value = 1)
                                  then of_int 1 else of_int (-1))
                          <$> [1; 0; 1; 0]))
                  0 (len [1; 0; 1; 0; 1] `div` 2)).
Proof.
  split; [reflexivity|]. split; [reflexivity|]. split; [by left|].
  apply (discrete_fourier_transform_signal (H := Ideal.ops)
           [1; 0; 1; 0; 1] [1; 0; 1; 0] 1); [reflexivity|reflexivity|by left].
Defined.

(** X12.  On a sequence of even length in which no value differs from the
    candidate (the empty sequence among them),
    [discrete_fourier_transform] finds no trough: [next] raises
    [StopIteration]. *)
Theorem discrete_fourier_transform_no_trough `{FloatOps} {A : Type}
    `{EqDecision A} (series : list A) (candidate : A) :
  len series `mod` 2 = 0 →
  (∀ value, value ∈ series → value = candidate) →
  discrete_fourier_transform series candidate = Raise StopIteration.
Proof.
  intros Heven Hall. unfold discrete_fourier_transform, truncate_to_even.
  rewrite decide_False by (by intros ?). cbn [mbind result_bind].
  rewrite filter_none; [done|].
  intros value Hv Hne. apply Hne, Hall. by apply elem_of_unique.
Qed.

Lemma discrete_fourier_transform_no_trough_witness :
  len [1; 1] `mod` 2 = 0
  ∧ (∀ value, value ∈ [1; 1] → value = 1)
  ∧ discrete_fourier_transform (H := Ideal.ops) [1; 1] 1
    = Raise StopIteration.
Proof.
  assert (∀ value : Z, value ∈ [1; 1] → value = 1) as Hall.
  { intros value Hv. apply elem_of_cons in Hv as [->|Hv]; [done|].
    apply elem_of_cons in Hv as [->|Hv]; [done|]. by apply elem_of_nil in Hv. }
  split; [reflexivity|]. split; [exact Hall|].
  apply (discrete_fourier_transform_no_trough (H := Ideal.ops) [1; 1] 1);
    [reflexivity|exact Hall].
Defined.
